(** * wallapop-agent: the client, the normalizers and the chat-instruction builder

    A shallow embedding of the TypeScript sources (client.ts, browser.ts,
    server.ts) and of the older plain-JavaScript client that lives next to
    them, with the properties of the response-normalization, hash-resolution
    and instruction-building layers.

    Upstream payloads are untyped at run time, so they are modelled as
    JavaScript values ([Value]) with the language's own rules for property
    access, optional chaining, truthiness and string conversion.  Failure is
    explicit: every operation that can throw returns a [Result]. *)

From Stdlib Require Import ZArith NArith List String Ascii Bool Lia.
From stdpp Require Import gmap strings.
Import ListNotations.

Local Open Scope N_scope.

(** ** Strings

    A JavaScript string is a sequence of UTF-16 code units. *)

Abbreviation jsstring := (list N).

Definition lit (s : string) : jsstring :=
  List.map N_of_ascii (list_ascii_of_string s).

(** The double quote, which many of the literals of the source contain. *)
Definition dq : N := 34.

Definition jsstring_eqb (a b : jsstring) : bool := bool_decide (a = b).

(** [String.prototype.startsWith]: [strip_prefix p s] is the rest of [s]
    after the prefix [p], when [s] starts with [p]. *)
Fixpoint strip_prefix (p s : jsstring) : option jsstring :=
  match p, s with
  | [], _ => Some s
  | a :: p', b :: s' => if N.eqb a b then strip_prefix p' s' else None
  | _ :: _, [] => None
  end.

Definition startsWith (s p : jsstring) : bool :=
  match strip_prefix p s with Some _ => true | None => false end.

(** ** Errors and results *)

(** The kinds of exception the client can raise: the plain [Error] that the
    source constructs itself with [throw new Error(message)], and the
    run-time's own [TypeError] (property read on null or undefined, call of
    a non-function, conversion of an object without a usable [toString])
    and [SyntaxError] (raised by [JSON.parse]). *)
Inductive JsError : Type :=
| Error (message : jsstring)
| TypeError
| SyntaxError.

Inductive Result (A : Type) : Type :=
| Ok (a : A)
| Throw (e : JsError).
Arguments Ok {A} a.
Arguments Throw {A} e.

Definition bind {A B} (r : Result A) (k : A -> Result B) : Result B :=
  match r with
  | Ok a => k a
  | Throw e => Throw e
  end.

Notation "'do' x <- r ; k" := (bind r (fun x => k))
  (at level 10, x name, r at level 100, k at level 200).

Fixpoint mapM {A B} (f : A -> Result B) (l : list A) : Result (list B) :=
  match l with
  | [] => Ok []
  | a :: l' => do b <- f a; do bs <- mapM f l'; Ok (b :: bs)
  end.

(** ** Numbers

    The client only moves numbers around: it tests them for truthiness,
    prints them into strings, takes [Math.min] of two of them and reads
    array lengths.  The IEEE arithmetic behind those operations is the
    platform's, so it is an interface here. *)

Class JsNumber (Num : Type) := {
  (** the Number value of the decimal literal [(-1)^neg * m * 10^e] *)
  num_of_decimal : bool -> N -> Z -> Num;
  (** ToBoolean *)
  num_truthy : Num -> bool;
  (** Number::toString *)
  num_toString : Num -> jsstring;
  (** Math.min *)
  num_min : Num -> Num -> Num;
  (** the [<] operator *)
  num_ltb : Num -> Num -> bool;
  num_min_not_above : forall a b, num_ltb b (num_min a b) = false;
  num_min_integers : forall a b : N,
    num_min (num_of_decimal false a 0) (num_of_decimal false b 0)
    = num_of_decimal false (N.min a b) 0
}.

Definition num_of_N {Num} `{JsNumber Num} (n : N) : Num := num_of_decimal false n 0%Z.
Definition num_of_nat {Num} `{JsNumber Num} (n : nat) : Num := num_of_N (N.of_nat n).

(** ** Values

    What [JSON.parse] and [res.json()] hand to the client, and what a
    property read on it can produce. *)

Section Values.
Context {Num : Type} `{JsNumber Num}.

#[warnings="-register-all"]
Inductive Value : Type :=
| VUndefined
| VNull
| VBool (b : bool)
| VNumber (n : Num)
| VString (s : jsstring)
| VArray (elems : list Value)
| VObject (props : list (jsstring * Value)).

(** The own property [k] of an object literal. *)
Fixpoint lookup_prop (k : jsstring) (props : list (jsstring * Value)) : option Value :=
  match props with
  | [] => None
  | (k', v) :: rest => if jsstring_eqb k' k then Some v else lookup_prop k rest
  end.

(** ToBoolean: what [!v], [v || d] and [if (v)] test. *)
Definition truthy (v : Value) : bool :=
  match v with
  | VUndefined | VNull => false
  | VBool b => b
  | VNumber n => num_truthy n
  | VString s => match s with [] => false | _ :: _ => true end
  | VArray _ | VObject _ => true
  end.

(** [v == null], the test behind [?.], [??] and [!= null]. *)
Definition nullish (v : Value) : bool :=
  match v with
  | VUndefined | VNull => true
  | _ => false
  end.

(** [a || b] *)
Definition or_else (a b : Value) : Value := if truthy a then a else b.

(** [a ?? b] *)
Definition coalesce (a b : Value) : Value := if nullish a then b else a.

(** [typeof v === 'object'], which also holds of [null] and of arrays. *)
Definition typeof_object (v : Value) : bool :=
  match v with
  | VNull | VArray _ | VObject _ => true
  | _ => false
  end.

(** The property [k] of a value that is neither null nor undefined, for the
    property names the client reads: none of them is an array index, and
    [length] is the only one that a prototype supplies. *)
Definition member (v : Value) (k : jsstring) : Value :=
  match v with
  | VObject props =>
      match lookup_prop k props with Some x => x | None => VUndefined end
  | VArray elems =>
      if jsstring_eqb k (lit "length") then VNumber (num_of_nat (length elems))
      else VUndefined
  | VString s =>
      if jsstring_eqb k (lit "length") then VNumber (num_of_nat (length s))
      else VUndefined
  | _ => VUndefined
  end.

(** [v.k]: a TypeError on null and undefined. *)
Definition get (v : Value) (k : jsstring) : Result Value :=
  if nullish v then Throw TypeError else Ok (member v k).

(** [v?.k] *)
Definition opt (v : Value) (k : jsstring) : Value :=
  if nullish v then VUndefined else member v k.

(** [v?.[0]] *)
Definition opt_first (v : Value) : Value :=
  match v with
  | VArray (x :: _) => x
  | VString (c :: _) => VString [c]
  | VObject props =>
      match lookup_prop (lit "0") props with Some x => x | None => VUndefined end
  | _ => VUndefined
  end.

(** ToString, as a template literal applies it to [${v}].  An array is
    joined with commas, its null and undefined elements printing as the
    empty string.  A parsed object prints through Object.prototype.toString
    unless it has a property of that name of its own, which, not being
    callable, leaves the conversion without a result: a TypeError. *)
Fixpoint ToString (v : Value) : Result jsstring :=
  match v with
  | VUndefined => Ok (lit "undefined")
  | VNull => Ok (lit "null")
  | VBool true => Ok (lit "true")
  | VBool false => Ok (lit "false")
  | VNumber n => Ok (num_toString n)
  | VString s => Ok s
  | VArray elems =>
      (fix join (l : list Value) : Result jsstring :=
         match l with
         | [] => Ok []
         | x :: rest =>
             do a <- (if nullish x then Ok [] else ToString x);
             match rest with
             | [] => Ok a
             | _ :: _ => do b <- join rest; Ok (a ++ lit "," ++ b)
             end
         end) elems
  | VObject props =>
      match lookup_prop (lit "toString") props with
      | Some _ => Throw TypeError
      | None => Ok (lit "[object Object]")
      end
  end.

(** [Array.prototype.map], reached through [v.map(f)]: a TypeError when
    [v] is not an array, since nothing else a parser returns has a callable
    [map]. *)
Definition Array_map {B} (f : Value -> Result B) (v : Value) : Result (list B) :=
  match v with
  | VArray elems => mapM f elems
  | _ => Throw TypeError
  end.

(** *** The simplified schema (types.ts) *)

Record SearchItem : Type := {
  si_id : Value;
  si_title : Value;
  si_price : Value;
  si_currency : Value;
  si_city : Value;
  si_distance : Value;
  si_slug : Value;
  si_url : jsstring;
  si_image : Value;
  si_sellerId : Value;
  si_reserved : Value;
  si_shippable : Value;
  si_createdAt : Value
}.

Record SearchResult : Type := {
  sr_items : list SearchItem;
  sr_nextPage : Value;
  sr_total : Value
}.

Record Seller : Type := { seller_id : Value; seller_name : Value }.

Record ItemDetails : Type := {
  it_id : Value;
  it_title : Value;
  it_description : Value;
  it_price : Value;
  it_currency : Value;
  it_city : Value;
  it_seller : Seller;
  it_slug : Value;
  it_url : jsstring;
  it_images : Value;
  it_reserved : Value;
  it_sold : Value;
  it_counters : Value;
  it_createdAt : Value
}.

Definition ITEM_URL : jsstring := lit "https://es.wallapop.com/item/".
Definition EUR : Value := VString (lit "EUR").
Definition zero : Value := VNumber (num_of_N 0).

(** *** Simplifiers (client.ts) *)

(** [`https://es.wallapop.com/item/${slug}`] *)
Definition item_url (slug : Value) : Result jsstring :=
  do s <- ToString slug; Ok (ITEM_URL ++ s).

Definition simplifySearchItem (item : Value) : Result SearchItem :=
  do id <- get item (lit "id");
  do title <- get item (lit "title");
  do price <- get item (lit "price");
  do location <- get item (lit "location");
  do distance <- get item (lit "distance");
  do web_slug <- get item (lit "web_slug");
  do url <- item_url web_slug;
  do images <- get item (lit "images");
  do user_id <- get item (lit "user_id");
  do reserved <- get item (lit "reserved");
  do shipping <- get item (lit "shipping");
  do created_at <- get item (lit "created_at");
  Ok {| si_id := id;
        si_title := title;
        si_price := opt price (lit "amount");
        si_currency := or_else (opt price (lit "currency")) EUR;
        si_city := opt location (lit "city");
        si_distance := distance;
        si_slug := web_slug;
        si_url := url;
        si_image := opt (opt (opt_first images) (lit "urls")) (lit "medium");
        si_sellerId := user_id;
        si_reserved := or_else (opt reserved (lit "flag")) (VBool false);
        si_shippable := or_else (opt shipping (lit "user_allows_shipping")) (VBool false);
        si_createdAt := created_at |}.

(** [typeof x === 'object' ? x.original : x] *)
Definition unwrap_original (x : Value) : Result Value :=
  if typeof_object x then get x (lit "original") else Ok x.

Definition simplifyItemDetails (raw : Value) : Result ItemDetails :=
  do title0 <- get raw (lit "title");
  do title <- unwrap_original title0;
  do desc0 <- get raw (lit "description");
  do desc <- unwrap_original desc0;
  do price0 <- get raw (lit "price");
  let price :=
    coalesce (coalesce (opt (opt price0 (lit "cash")) (lit "amount"))
                       (opt price0 (lit "amount")))
             zero in
  do id <- get raw (lit "id");
  do location <- get raw (lit "location");
  do user <- get raw (lit "user");
  do web_slug <- get raw (lit "web_slug");
  do url <- item_url web_slug;
  do images <- get raw (lit "images");
  do count <- get (or_else images (VArray [])) (lit "length");
  do reserved <- get raw (lit "reserved");
  do sold <- get raw (lit "sold");
  do counters <- get raw (lit "counters");
  do creation_date <- get raw (lit "creation_date");
  Ok {| it_id := id;
        it_title := title;
        it_description := desc;
        it_price := price;
        it_currency :=
          or_else (or_else (opt (opt price0 (lit "cash")) (lit "currency"))
                           (opt price0 (lit "currency")))
                  EUR;
        it_city := opt location (lit "city");
        it_seller := {| seller_id := opt user (lit "id");
                        seller_name := opt user (lit "micro_name") |};
        it_slug := web_slug;
        it_url := url;
        it_images := count;
        it_reserved := or_else (opt reserved (lit "flag")) (VBool false);
        it_sold := or_else (opt sold (lit "flag")) (VBool false);
        it_counters := or_else counters VNull;
        it_createdAt := creation_date |}.

End Values.

Arguments Value Num : clear implicits.
Arguments SearchItem Num : clear implicits.
Arguments SearchResult Num : clear implicits.
Arguments Seller Num : clear implicits.
Arguments ItemDetails Num : clear implicits.

(** ** Search (client.ts) *)

Section Search.
Context {Num : Type} `{JsNumber Num}.

(** [SearchParams] of types.ts; an optional field is [None] when it is
    undefined. *)
Record SearchParams : Type := {
  keywords : option jsstring;
  minPrice : option Num;
  maxPrice : option Num;
  distance : option Num;
  latitude : option Num;
  longitude : option Num;
  categoryId : option Num;
  orderBy : option jsstring;
  limit : option Num;
  nextPage : option jsstring
}.

(** [Record<string, string | number>] *)
Inductive QueryValue : Type :=
| QStr (s : jsstring)
| QNum (n : Num).

(** Barcelona defaults *)
Definition DEFAULT_LAT : Num := num_of_decimal false 413891 (-4).
Definition DEFAULT_LNG : Num := num_of_decimal false 21606 (-4).

(** [if (s) ...] on an optional string: it must be there and not empty. *)
Definition given (s : option jsstring) : option jsstring :=
  match s with
  | Some (c :: r) => Some (c :: r)
  | _ => None
  end.

(** [if (v != null) query[k] = v] *)
Definition set_if (k : string) (v : option QueryValue)
    (query : gmap string QueryValue) : gmap string QueryValue :=
  match v with
  | Some x => <[k := x]> query
  | None => query
  end.

(** The query object that [search] builds before it calls [get]. *)
Definition search_query (params : SearchParams) : gmap string QueryValue :=
  let query : gmap string QueryValue :=
    <["limit" := QNum (default (num_of_N 20) (limit params))]>
      (<["source" := QStr (lit "keywords")]>
         (<["step" := QNum (num_of_N 1)]> ∅)) in
  match given (nextPage params) with
  | Some cursor => <["next_page" := QStr cursor]> query
  | None =>
      let query := set_if "keywords" (QStr <$> given (keywords params)) query in
      let query := set_if "min_sale_price" (QNum <$> minPrice params) query in
      let query := set_if "max_sale_price" (QNum <$> maxPrice params) query in
      let query := set_if "distance" (QNum <$> distance params) query in
      let query := <["latitude" := QNum (default DEFAULT_LAT (latitude params))]> query in
      let query := <["longitude" := QNum (default DEFAULT_LNG (longitude params))]> query in
      let query := set_if "category_id" (QNum <$> categoryId params) query in
      set_if "order_by" (QStr <$> given (orderBy params)) query
  end.

(** What [search] makes of the body of the upstream response. *)
(** [data?.data?.section?.payload?.items || []] *)
Definition raw_items (data : Value Num) : Value Num :=
  or_else (opt (opt (opt (opt data (lit "data")) (lit "section")) (lit "payload"))
               (lit "items"))
          (VArray []).

Definition search_result (data : Value Num) : Result (SearchResult Num) :=
  let items := raw_items data in
  do simplified <- Array_map simplifySearchItem items;
  do total <- get items (lit "length");
  Ok {| sr_items := simplified;
        sr_nextPage := or_else (opt (opt data (lit "meta")) (lit "next_page")) VNull;
        sr_total := total |}.

(** The upstream JSON API, as [get] sees it: a path and a query go out,
    a parsed body or an exception comes back. *)
Definition Upstream : Type :=
  jsstring -> gmap string QueryValue -> Result (Value Num).

Definition search (api : Upstream) (params : SearchParams) : Result (SearchResult Num) :=
  do data <- api (lit "/search") (search_query params);
  search_result data.

Definition getItem (api : Upstream) (itemId : jsstring) : Result (ItemDetails Num) :=
  do raw <- api (lit "/items/" ++ itemId) ∅;
  simplifyItemDetails raw.

End Search.

Arguments SearchParams Num : clear implicits.
Arguments QueryValue Num : clear implicits.
Arguments Upstream Num : clear implicits.

(** ** JSON.parse

    The platform's parser, written as a lexer that reads one code unit at a
    time and a stack machine over its tokens.  [None] is the SyntaxError. *)

Section Json.
Context {Num : Type} `{JsNumber Num}.

Inductive token : Type :=
| TLBrace | TRBrace | TLBracket | TRBracket | TColon | TComma
| TStr (s : jsstring)
| TNum (neg : bool) (m : N) (e : Z)
| TTrue | TFalse | TNull.

Inductive num_phase : Type :=
| NMinus   (* after the sign: a digit must follow *)
| NZero    (* after a leading zero *)
| NInt     (* in the integer digits *)
| NDot     (* after the point: a digit must follow *)
| NFrac    (* in the fraction digits *)
| NE       (* after e or E: a sign or a digit must follow *)
| NESign   (* after the sign of the exponent: a digit must follow *)
| NExp.    (* in the exponent digits *)

Record numacc : Type := {
  n_neg : bool;     (* the sign *)
  n_mant : N;       (* integer and fraction digits read as one integer *)
  n_scale : Z;      (* how many of them are fraction digits *)
  n_eneg : bool;    (* the sign of the exponent *)
  n_exp : N         (* the exponent digits *)
}.

Inductive lex_state : Type :=
| LStart                                  (* between tokens *)
| LStr (acc : jsstring)                   (* in a string; acc is reversed *)
| LEsc (acc : jsstring)                   (* after a backslash *)
| LUni (acc : jsstring) (k : nat) (code : N)   (* k hex digits still to read *)
| LLit (rest : jsstring) (t : token)      (* in true, false or null *)
| LNum (ph : num_phase) (a : numacc).

Definition digit (c : N) : option N :=
  if (48 <=? c) && (c <=? 57) then Some (c - 48) else None.

Definition hex_digit (c : N) : option N :=
  if (48 <=? c) && (c <=? 57) then Some (c - 48)
  else if (65 <=? c) && (c <=? 70) then Some (c - 55)
  else if (97 <=? c) && (c <=? 102) then Some (c - 87)
  else None.

(** JSON white space: space, tab, line feed, carriage return. *)
Definition json_ws (c : N) : bool :=
  (c =? 32) || (c =? 9) || (c =? 10) || (c =? 13).

Definition num_token (a : numacc) : token :=
  TNum (n_neg a) (n_mant a)
       ((if n_eneg a then - Z.of_N (n_exp a) else Z.of_N (n_exp a)) - n_scale a)%Z.

Definition num_start (neg : bool) (d : N) : numacc :=
  {| n_neg := neg; n_mant := d; n_scale := 0; n_eneg := false; n_exp := 0 |}.

Definition step_start (c : N) : option (lex_state * list token) :=
  if json_ws c then Some (LStart, [])
  else if c =? 123 then Some (LStart, [TLBrace])
  else if c =? 125 then Some (LStart, [TRBrace])
  else if c =? 91 then Some (LStart, [TLBracket])
  else if c =? 93 then Some (LStart, [TRBracket])
  else if c =? 58 then Some (LStart, [TColon])
  else if c =? 44 then Some (LStart, [TComma])
  else if c =? dq then Some (LStr [], [])
  else if c =? 45 then Some (LNum NMinus (num_start true 0), [])
  else if c =? 48 then Some (LNum NZero (num_start false 0), [])
  else if c =? 116 then Some (LLit (lit "rue") TTrue, [])
  else if c =? 102 then Some (LLit (lit "alse") TFalse, [])
  else if c =? 110 then Some (LLit (lit "ull") TNull, [])
  else match digit c with
       | Some d => Some (LNum NInt (num_start false d), [])
       | None => None
       end.

(** The number is over: emit it and read [c] afresh. *)
Definition end_number (a : numacc) (c : N) : option (lex_state * list token) :=
  match step_start c with
  | Some (st, out) => Some (st, num_token a :: out)
  | None => None
  end.

Definition is_e (c : N) : bool := (c =? 101) || (c =? 69).

Definition push_int (a : numacc) (d : N) : numacc :=
  {| n_neg := n_neg a; n_mant := 10 * n_mant a + d; n_scale := n_scale a;
     n_eneg := n_eneg a; n_exp := n_exp a |}.

Definition push_frac (a : numacc) (d : N) : numacc :=
  {| n_neg := n_neg a; n_mant := 10 * n_mant a + d; n_scale := (n_scale a + 1)%Z;
     n_eneg := n_eneg a; n_exp := n_exp a |}.

Definition push_exp (a : numacc) (d : N) : numacc :=
  {| n_neg := n_neg a; n_mant := n_mant a; n_scale := n_scale a;
     n_eneg := n_eneg a; n_exp := 10 * n_exp a + d |}.

Definition set_eneg (a : numacc) (b : bool) : numacc :=
  {| n_neg := n_neg a; n_mant := n_mant a; n_scale := n_scale a;
     n_eneg := b; n_exp := n_exp a |}.

Definition step_num (ph : num_phase) (a : numacc) (c : N)
    : option (lex_state * list token) :=
  match ph, digit c with
  | NMinus, Some d =>
      if d =? 0 then Some (LNum NZero a, []) else Some (LNum NInt (push_int a d), [])
  | NMinus, None => None
  | NZero, _ =>
      if c =? 46 then Some (LNum NDot a, [])
      else if is_e c then Some (LNum NE a, [])
      else end_number a c
  | NInt, Some d => Some (LNum NInt (push_int a d), [])
  | NInt, None =>
      if c =? 46 then Some (LNum NDot a, [])
      else if is_e c then Some (LNum NE a, [])
      else end_number a c
  | NDot, Some d => Some (LNum NFrac (push_frac a d), [])
  | NDot, None => None
  | NFrac, Some d => Some (LNum NFrac (push_frac a d), [])
  | NFrac, None => if is_e c then Some (LNum NE a, []) else end_number a c
  | NE, Some d => Some (LNum NExp (push_exp a d), [])
  | NE, None =>
      if c =? 43 then Some (LNum NESign a, [])
      else if c =? 45 then Some (LNum NESign (set_eneg a true), [])
      else None
  | NESign, Some d => Some (LNum NExp (push_exp a d), [])
  | NESign, None => None
  | NExp, Some d => Some (LNum NExp (push_exp a d), [])
  | NExp, None => end_number a c
  end.

(** The code unit an escape letter stands for. *)
Definition escape (c : N) : option N :=
  if c =? dq then Some dq
  else if c =? 92 then Some 92
  else if c =? 47 then Some 47
  else if c =? 98 then Some 8
  else if c =? 102 then Some 12
  else if c =? 110 then Some 10
  else if c =? 114 then Some 13
  else if c =? 116 then Some 9
  else None.

Definition lex_step (st : lex_state) (c : N) : option (lex_state * list token) :=
  match st with
  | LStart => step_start c
  | LStr acc =>
      if c =? dq then Some (LStart, [TStr (rev acc)])
      else if c =? 92 then Some (LEsc acc, [])
      else if c <? 32 then None
      else Some (LStr (c :: acc), [])
  | LEsc acc =>
      if c =? 117 then Some (LUni acc 4 0, [])
      else match escape c with
           | Some x => Some (LStr (x :: acc), [])
           | None => None
           end
  | LUni acc k code =>
      match hex_digit c, k with
      | Some h, 1%nat => Some (LStr ((16 * code + h) :: acc), [])
      | Some h, S k' => Some (LUni acc k' (16 * code + h), [])
      | _, _ => None
      end
  | LLit rest t =>
      match rest with
      | [x] => if c =? x then Some (LStart, [t]) else None
      | x :: rest' => if c =? x then Some (LLit rest' t, []) else None
      | [] => None
      end
  | LNum ph a => step_num ph a c
  end.

(** What the end of the text makes of the state. *)
Definition lex_end (st : lex_state) : option (list token) :=
  match st with
  | LStart => Some []
  | LNum (NZero | NInt | NFrac | NExp) a => Some [num_token a]
  | _ => None
  end.

Fixpoint lex_from (st : lex_state) (text : jsstring) : option (list token) :=
  match text with
  | [] => lex_end st
  | c :: rest =>
      match lex_step st c with
      | Some (st', out) =>
          match lex_from st' rest with
          | Some toks => Some (out ++ toks)
          | None => None
          end
      | None => None
      end
  end.

(** The containers under construction, innermost first. *)
Inductive frame : Type :=
| FArr (elems_rev : list (Value Num))
| FObj (props : list (jsstring * Value Num)) (key : option jsstring).

Inductive mode : Type :=
| MValue          (* a value must come *)
| MValueOrClose   (* just after an opening bracket *)
| MKeyOrClose     (* just after an opening brace *)
| MKey            (* after a comma in an object *)
| MColon          (* after a key *)
| MAfter          (* after a value inside a container *)
| MDone (v : Value Num).

(** A later duplicate of a key overwrites its value and keeps its place. *)
Fixpoint obj_set (k : jsstring) (v : Value Num) (props : list (jsstring * Value Num))
    : list (jsstring * Value Num) :=
  match props with
  | [] => [(k, v)]
  | (k', v') :: rest =>
      if jsstring_eqb k' k then (k', v) :: rest else (k', v') :: obj_set k v rest
  end.

Definition push_value (v : Value Num) (stack : list frame) : option (list frame * mode) :=
  match stack with
  | [] => Some ([], MDone v)
  | FArr acc :: st => Some (FArr (v :: acc) :: st, MAfter)
  | FObj props (Some k) :: st => Some (FObj (obj_set k v props) None :: st, MAfter)
  | FObj _ None :: _ => None
  end.

Definition parse_value_token (t : token) (stack : list frame)
    : option (list frame * mode) :=
  match t with
  | TStr s => push_value (VString s) stack
  | TNum neg m e => push_value (VNumber (num_of_decimal neg m e)) stack
  | TTrue => push_value (VBool true) stack
  | TFalse => push_value (VBool false) stack
  | TNull => push_value VNull stack
  | TLBracket => Some (FArr [] :: stack, MValueOrClose)
  | TLBrace => Some (FObj [] None :: stack, MKeyOrClose)
  | _ => None
  end.

Definition parse_step (stack : list frame) (m : mode) (t : token)
    : option (list frame * mode) :=
  match m, t, stack with
  | MValueOrClose, TRBracket, FArr _ :: st => push_value (VArray []) st
  | (MValue | MValueOrClose), _, _ => parse_value_token t stack
  | MKeyOrClose, TRBrace, FObj _ _ :: st => push_value (VObject []) st
  | (MKeyOrClose | MKey), TStr k, FObj props _ :: st => Some (FObj props (Some k) :: st, MColon)
  | MColon, TColon, _ => Some (stack, MValue)
  | MAfter, TComma, FArr _ :: _ => Some (stack, MValue)
  | MAfter, TRBracket, FArr acc :: st => push_value (VArray (rev acc)) st
  | MAfter, TComma, FObj _ _ :: _ => Some (stack, MKey)
  | MAfter, TRBrace, FObj props _ :: st => push_value (VObject props) st
  | _, _, _ => None
  end.

Fixpoint parse_from (stack : list frame) (m : mode) (toks : list token)
    : option (Value Num) :=
  match toks with
  | [] => match m with MDone v => Some v | _ => None end
  | t :: rest =>
      match parse_step stack m t with
      | Some (stack', m') => parse_from stack' m' rest
      | None => None
      end
  end.

Definition JSON_parse (text : jsstring) : Result (Value Num) :=
  match lex_from LStart text with
  | Some toks =>
      match parse_from [] MValue toks with
      | Some v => Ok v
      | None => Throw SyntaxError
      end
  | None => Throw SyntaxError
  end.

End Json.

(** ** A model of the numbers: exact decimals

    Finite numbers as signed decimals, compared exactly.  On zero and on
    the numbers a JSON text can name with at most fifteen significant digits
    and a magnitude from 1e-6 up to, but not including, 1e21, this agrees
    with the double-precision numbers of the platform, printing included;
    it is what the examples run on. *)

Module Decimals.

Record Dec : Type := { dneg : bool; dmant : N; dexp : Z }.

Definition signed (d : Dec) : Z :=
  if dneg d then (- Z.of_N (dmant d))%Z else Z.of_N (dmant d).

Definition dec_compare (a b : Dec) : comparison :=
  let e := Z.min (dexp a) (dexp b) in
  (signed a * 10 ^ (dexp a - e) ?= signed b * 10 ^ (dexp b - e))%Z.

Definition dec_ltb (a b : Dec) : bool :=
  match dec_compare a b with Lt => true | _ => false end.

Definition dec_min (a b : Dec) : Dec := if dec_ltb b a then b else a.

Definition dec_truthy (d : Dec) : bool := negb (dmant d =? 0).

Fixpoint uint_chars (u : Decimal.uint) : jsstring :=
  match u with
  | Decimal.Nil => []
  | Decimal.D0 r => 48 :: uint_chars r
  | Decimal.D1 r => 49 :: uint_chars r
  | Decimal.D2 r => 50 :: uint_chars r
  | Decimal.D3 r => 51 :: uint_chars r
  | Decimal.D4 r => 52 :: uint_chars r
  | Decimal.D5 r => 53 :: uint_chars r
  | Decimal.D6 r => 54 :: uint_chars r
  | Decimal.D7 r => 55 :: uint_chars r
  | Decimal.D8 r => 56 :: uint_chars r
  | Decimal.D9 r => 57 :: uint_chars r
  end.

Definition digits (n : N) : jsstring := uint_chars (N.to_uint n).

Fixpoint drop_zeros (rev_digits : jsstring) : jsstring :=
  match rev_digits with
  | 48 :: r => drop_zeros r
  | _ => rev_digits
  end.

Definition dec_toString (d : Dec) : jsstring :=
  if dmant d =? 0 then lit "0"
  else
    (if dneg d then lit "-" else []) ++
    match dexp d with
    | Z0 => digits (dmant d)
    | Zpos e => digits (dmant d * 10 ^ Npos e)
    | Zneg k =>
        let unit := 10 ^ Npos k in
        let whole := dmant d / unit in
        let part := dmant d mod unit in
        if part =? 0 then digits whole
        else digits whole ++ lit "." ++ rev (drop_zeros (rev (tl (digits (unit + part)))))
    end.

#[export] Instance Dec_JsNumber : JsNumber Dec.
Proof.
  refine {| num_of_decimal neg m e := {| dneg := neg; dmant := m; dexp := e |};
            num_truthy := dec_truthy;
            num_toString := dec_toString;
            num_min := dec_min;
            num_ltb := dec_ltb |}.
  - intros a b. unfold dec_min. destruct (dec_ltb b a) eqn:E; [|exact E].
    unfold dec_ltb, dec_compare. now rewrite Z.compare_refl.
  - intros a b. unfold dec_min, dec_ltb, dec_compare, signed; simpl.
    rewrite !Z.mul_1_r, N2Z.inj_compare.
    destruct (N.compare_spec b a) as [->|Hlt|Hgt].
    + now rewrite N.min_id.
    + now rewrite N.min_r by lia.
    + now rewrite N.min_l by lia.
Defined.

End Decimals.

(** ** Hash resolution (client.ts) *)

(** The web as [fetch] sees it: the text behind a URL, or a rejection. *)
Definition Web : Type := jsstring -> Result jsstring.

(** A run of an operation that fetches pages: the URLs it asked for, in
    order, and how it ended. *)
Record Run (A : Type) : Type := { requested : list jsstring; outcome : Result A }.
Arguments requested {A} r.
Arguments outcome {A} r.

Section Hash.
Context {Num : Type} `{JsNumber Num}.

(** The class [\s] of a regular expression: white space and line
    terminators. *)
Definition is_space (c : N) : bool :=
  ((9 <=? c) && (c <=? 13)) || (c =? 32) || (c =? 160) || (c =? 5760)
  || ((8192 <=? c) && (c <=? 8202)) || (c =? 8232) || (c =? 8233)
  || (c =? 8239) || (c =? 8287) || (c =? 12288) || (c =? 65279).

(** The class [[^<]]. *)
Definition not_lt (c : N) : bool := negb (c =? 60).

(** The longest prefix whose code units all pass [f], and the rest. *)
Fixpoint span (f : N -> bool) (s : jsstring) : jsstring * jsstring :=
  match s with
  | [] => ([], [])
  | c :: r => if f c then let (a, b) := span f r in (c :: a, b) else ([], s)
  end.

(** The literal pieces of
    [/<script\s+id="__NEXT_DATA__"\s+type="application\/json">([^<]+)<\/script>/]. *)
Definition SCRIPT_OPEN : jsstring := lit "<script".
Definition ID_ATTR : jsstring := lit "id=" ++ [dq] ++ lit "__NEXT_DATA__" ++ [dq].
Definition TYPE_ATTR : jsstring :=
  lit "type=" ++ [dq] ++ lit "application/json" ++ [dq] ++ lit ">".
Definition SCRIPT_CLOSE : jsstring := lit "</script>".

(** One or more code units of a class, as many as there are: what [\s+]
    and [[^<]+] take when the piece that follows starts outside the class. *)
Definition one_or_more (f : N -> bool) (s : jsstring) : option (jsstring * jsstring) :=
  match span f s with
  | ([], _) => None
  | (c :: run, rest) => Some (c :: run, rest)
  end.

(** The capture group, when the expression matches at the very start of [s]. *)
Definition match_at (s : jsstring) : option jsstring :=
  match strip_prefix SCRIPT_OPEN s with
  | None => None
  | Some s1 =>
  match one_or_more is_space s1 with
  | None => None
  | Some (_, s2) =>
  match strip_prefix ID_ATTR s2 with
  | None => None
  | Some s3 =>
  match one_or_more is_space s3 with
  | None => None
  | Some (_, s4) =>
  match strip_prefix TYPE_ATTR s4 with
  | None => None
  | Some s5 =>
  match one_or_more not_lt s5 with
  | None => None
  | Some (captured, s6) =>
  match strip_prefix SCRIPT_CLOSE s6 with
  | None => None
  | Some _ => Some captured
  end end end end end end end.

(** [html.match(...)]: the capture group of the leftmost match. *)
Fixpoint NEXT_DATA_match (html : jsstring) : option jsstring :=
  match match_at html with
  | Some captured => Some captured
  | None =>
      match html with
      | [] => None
      | _ :: rest => NEXT_DATA_match rest
      end
  end.

Definition NOT_FOUND : JsError := Error (lit "Could not find __NEXT_DATA__ in page").
Definition NOT_EXTRACTED : JsError :=
  Error (lit "Could not extract item hash from page data").

(** The URL that [getItemHash] fetches. *)
Definition fullUrl (urlOrSlug : jsstring) : jsstring :=
  if startsWith urlOrSlug (lit "http") then urlOrSlug
  else lit "https://es.wallapop.com/item/" ++ urlOrSlug.

(** [nextData?.props?.pageProps?.item?.id] *)
Definition item_id (nextData : Value Num) : Value Num :=
  opt (opt (opt (opt nextData (lit "props")) (lit "pageProps")) (lit "item"))
      (lit "id").

(** What [getItemHash] makes of the text of the page. *)
Definition hash_of_page (html : jsstring) : Result (Value Num) :=
  match NEXT_DATA_match html with
  | Some (c :: r) =>
      do nextData <- JSON_parse (c :: r);
      let hash := item_id nextData in
      if truthy hash then Ok hash else Throw NOT_EXTRACTED
  | _ => Throw NOT_FOUND
  end.

Definition getItemHash (web : Web) (urlOrSlug : jsstring) : Run (Value Num) :=
  let url := fullUrl urlOrSlug in
  {| requested := [url];
     outcome := do html <- web url; hash_of_page html |}.

(** [chatUrl] *)
Definition CHAT_BASE : jsstring := lit "https://es.wallapop.com/app/chat".

Definition chatUrl (itemHash : jsstring) : jsstring :=
  CHAT_BASE ++ lit "?itemId=" ++ itemHash.

End Hash.

(** ** The instruction builder (browser.ts) *)

Record ChatStep : Type := {
  action : jsstring;
  url : option jsstring;
  selector : option jsstring;
  text : option jsstring;
  submit : option bool;
  note : jsstring
}.

Record ChatInstructions : Type := {
  hash : jsstring;
  ci_chatUrl : jsstring;
  message : jsstring;
  steps : list ChatStep
}.

Definition TEXTBOX : jsstring :=
  lit "textbox " ++ [dq] ++ lit "Escribe un mensaje..." ++ [dq].

Definition buildChatInstructions (itemHash message : jsstring) : ChatInstructions :=
  let chatUrl := lit "https://es.wallapop.com/app/chat?itemId=" ++ itemHash in
  let steps := [
    {| action := lit "navigate"; url := Some chatUrl; selector := None;
       text := None; submit := None;
       note := lit "Opens chat thread with seller for this item" |};
    {| action := lit "snapshot"; url := None; selector := None;
       text := None; submit := None;
       note := lit "Wait for page load, find " ++ TEXTBOX |};
    {| action := lit "click"; url := None; selector := Some TEXTBOX;
       text := None; submit := None;
       note := lit "Focus the message input" |};
    {| action := lit "type"; url := None; selector := None;
       text := Some message; submit := Some true;
       note := lit "Type message and press Enter to send" |};
    {| action := lit "snapshot"; url := None; selector := None;
       text := None; submit := None;
       note := lit "Verify message appears in chat with timestamp" |}
  ] in
  {| hash := itemHash; ci_chatUrl := chatUrl; message := message; steps := steps |}.

(** ** The composite route (server.ts) *)

(** What the handler answers: a body with status 200, the 400 of a missing
    field, or the exception it hands to the error handler. *)
Inductive Response (A : Type) : Type :=
| Status200 (body : A)
| Status400 (error : jsstring)
| Failed (e : JsError).
Arguments Status200 {A} body.
Arguments Status400 {A} error.
Arguments Failed {A} e.

Section Server.
Context {Num : Type} `{JsNumber Num}.

(** The body of [POST /api/search-and-contact], as the handler types it. *)
Record ContactBody : Type := {
  b_query : option jsstring;
  b_message : option jsstring;
  b_maxPrice : option Num;
  b_minPrice : option Num;
  b_limit : option Num;
  b_distance : option Num;
  b_lat : option Num;
  b_lng : option Num
}.

(** The argument of the call to [client.search]; [limit = 5] is the default
    of the destructuring. *)
Definition contact_params (body : ContactBody) (query : jsstring) : SearchParams Num :=
  {| keywords := Some query;
     maxPrice := b_maxPrice body;
     minPrice := b_minPrice body;
     limit := Some (num_min (default (num_of_N 5) (b_limit body)) (num_of_N 20));
     distance := b_distance body;
     latitude := b_lat body;
     longitude := b_lng body;
     categoryId := None;
     orderBy := None;
     nextPage := None |}.

Record ChatFlow : Type := { step1 : jsstring; step2 : jsstring }.

(** [{ ...item, chatFlow }] *)
Record ContactItem : Type := { ci_item : SearchItem Num; chatFlow : ChatFlow }.

Record ContactResult : Type := {
  cr_items : list ContactItem;
  cr_total : Value Num;
  cr_nextPage : Value Num
}.

Definition annotate (message : jsstring) (item : SearchItem Num) : Result ContactItem :=
  do slug <- ToString (si_slug item);
  Ok {| ci_item := item;
        chatFlow :=
          {| step1 := lit "GET /api/items/hash?slug=" ++ slug;
             step2 := lit "POST /api/chat { itemHash: " ++ [dq] ++ lit "<hash>" ++ [dq]
                      ++ lit ", message: " ++ [dq] ++ message ++ [dq] ++ lit " }" |} |}.

(** [i => !i.reserved] *)
Definition not_reserved (i : SearchItem Num) : bool := negb (truthy (si_reserved i)).

Definition contact_result (message : jsstring) (results : SearchResult Num)
    : Result ContactResult :=
  let available := List.filter not_reserved (sr_items results) in
  do items <- mapM (annotate message) available;
  Ok {| cr_items := items;
        cr_total := VNumber (num_of_nat (length items));
        cr_nextPage := sr_nextPage results |}.

Definition search_and_contact (api : Upstream Num) (body : ContactBody)
    : Response ContactResult :=
  match given (b_query body) with
  | None => Status400 (lit "query required")
  | Some query =>
  match given (b_message body) with
  | None => Status400 (lit "message required")
  | Some message =>
      match (do results <- search api (contact_params body query);
             contact_result message results) with
      | Ok r => Status200 r
      | Throw e => Failed e
      end
  end end.

End Server.

Arguments ContactBody Num : clear implicits.
Arguments ContactItem Num : clear implicits.
Arguments ContactResult Num : clear implicits.

(** ** The plain-JavaScript sources

    The repository keeps an older client and server written in plain
    JavaScript next to the TypeScript ones.  Below are the functions of
    theirs that differ from their TypeScript counterparts in more than the
    wording of a message. *)

Module Js.
Section Js.
Context {Num : Type} `{JsNumber Num}.

(** [search({ ..., latitude = DEFAULT_LAT, longitude = DEFAULT_LNG, limit = 20, ... })]:
    the defaults are those of the destructuring. *)
Definition search_query (params : SearchParams Num) : gmap string (QueryValue Num) :=
  let latitude := default DEFAULT_LAT (latitude params) in
  let longitude := default DEFAULT_LNG (longitude params) in
  let limit := default (num_of_N 20) (limit params) in
  let query : gmap string (QueryValue Num) :=
    <["limit" := QNum limit]>
      (<["source" := QStr (lit "keywords")]>
         (<["step" := QNum (num_of_N 1)]> ∅)) in
  match given (nextPage params) with
  | Some cursor => <["next_page" := QStr cursor]> query
  | None =>
      let query := set_if "keywords" (QStr <$> given (keywords params)) query in
      let query := set_if "min_sale_price" (QNum <$> minPrice params) query in
      let query := set_if "max_sale_price" (QNum <$> maxPrice params) query in
      let query := set_if "distance" (QNum <$> distance params) query in
      let query := set_if "latitude" (Some (QNum latitude)) query in
      let query := set_if "longitude" (Some (QNum longitude)) query in
      let query := set_if "category_id" (QNum <$> categoryId params) query in
      set_if "order_by" (QStr <$> given (orderBy params)) query
  end.

Definition simplifyItemDetails (raw : Value Num) : Result (ItemDetails Num) :=
  do title0 <- get raw (lit "title");
  do title <- unwrap_original title0;
  do desc0 <- get raw (lit "description");
  do desc <- unwrap_original desc0;
  do price0 <- get raw (lit "price");
  let price :=
    coalesce (opt (opt price0 (lit "cash")) (lit "amount"))
             (opt price0 (lit "amount")) in
  do id <- get raw (lit "id");
  do location <- get raw (lit "location");
  do user <- get raw (lit "user");
  do web_slug <- get raw (lit "web_slug");
  do url <- item_url web_slug;
  do images <- get raw (lit "images");
  do count <- get (or_else images (VArray [])) (lit "length");
  do reserved <- get raw (lit "reserved");
  do sold <- get raw (lit "sold");
  do counters <- get raw (lit "counters");
  do creation_date <- get raw (lit "creation_date");
  Ok {| it_id := id;
        it_title := title;
        it_description := desc;
        it_price := price;
        it_currency :=
          or_else (or_else (opt (opt price0 (lit "cash")) (lit "currency"))
                           (opt price0 (lit "currency")))
                  EUR;
        it_city := opt location (lit "city");
        it_seller := {| seller_id := opt user (lit "id");
                        seller_name := opt user (lit "micro_name") |};
        it_slug := web_slug;
        it_url := url;
        it_images := count;
        it_reserved := or_else (opt reserved (lit "flag")) (VBool false);
        it_sold := or_else (opt sold (lit "flag")) (VBool false);
        it_counters := or_else counters VNull;
        it_createdAt := creation_date |}.

(** [x ? Number(x) : undefined] on a number *)
Definition if_truthy (x : option Num) : option Num :=
  match x with
  | Some n => if num_truthy n then Some n else None
  | None => None
  end.

(** The argument of [client.search] in the composite route of the
    JavaScript server; [Number(limit)] is [limit] on a number. *)
Definition contact_params (body : ContactBody Num) (query : jsstring) : SearchParams Num :=
  {| keywords := Some query;
     maxPrice := if_truthy (b_maxPrice body);
     minPrice := if_truthy (b_minPrice body);
     limit := Some (num_min (default (num_of_N 5) (b_limit body)) (num_of_N 20));
     distance := if_truthy (b_distance body);
     latitude := if_truthy (b_lat body);
     longitude := if_truthy (b_lng body);
     categoryId := None;
     orderBy := None;
     nextPage := None |}.

End Js.
End Js.

(** ** The vocabulary of the specification *)

(** The filter fields of a SearchQuery, under the names they have in the
    upstream query: keywords, price bounds, coordinates, distance, category,
    sort order and page-size limit. *)
Definition FILTER_FIELDS : list string :=
  ["keywords"; "min_sale_price"; "max_sale_price"; "latitude"; "longitude";
   "distance"; "category_id"; "order_by"; "limit"].

(** The same without the page size. *)
Definition CURSOR_EXCLUDES : list string :=
  ["keywords"; "min_sale_price"; "max_sale_price"; "latitude"; "longitude";
   "distance"; "category_id"; "order_by"].

(** The cursor goes upstream alone: the query holds it and none of the
    filter fields. *)
Definition cursor_alone {Num} (cursor : jsstring) (query : gmap string (QueryValue Num))
    : Prop :=
  query !! "next_page" = Some (QStr cursor)
  /\ Forall (fun k => query !! k = None) FILTER_FIELDS.

(** What goes upstream with a cursor: the fixed fields, the page size and
    the cursor. *)
Definition cursor_query {Num} `{JsNumber Num} (p : SearchParams Num) (cursor : jsstring)
    : gmap string (QueryValue Num) :=
  <["next_page" := QStr cursor]>
    (<["limit" := QNum (default (num_of_N 20) (limit p))]>
       (<["source" := QStr (lit "keywords")]>
          (<["step" := QNum (num_of_N 1)]> ∅))).

(** The currency the upstream gave for a raw item, undefined when it gave
    none. *)
Definition raw_currency {Num} `{JsNumber Num} (raw : Value Num) : Value Num :=
  opt (member raw (lit "price")) (lit "currency").

(** The follow-up that the composite route attaches to an item: how to
    fetch its hash, and how to ask for the chat instructions with it. *)
Definition follow_up (msg slug : jsstring) : ChatFlow :=
  {| step1 := lit "GET /api/items/hash?slug=" ++ slug;
     step2 := lit "POST /api/chat { itemHash: " ++ [dq] ++ lit "<hash>" ++ [dq]
              ++ lit ", message: " ++ [dq] ++ msg ++ [dq] ++ lit " }" |}.

(** The page holds the script tag that the regular expression describes:
    [content] sits between the opening tag, whose two attributes follow one
    or more white-space code units each, and the closing tag; it is not
    empty and has no [<] in it.  [pre] is what comes before the tag. *)
Definition tag_at (html pre content post : jsstring) : Prop :=
  exists ws1 ws2,
    ws1 <> [] /\ Forall (fun c => is_space c = true) ws1
    /\ ws2 <> [] /\ Forall (fun c => is_space c = true) ws2
    /\ content <> [] /\ Forall (fun c => not_lt c = true) content
    /\ html = pre ++ SCRIPT_OPEN ++ ws1 ++ ID_ATTR ++ ws2 ++ TYPE_ATTR
                 ++ content ++ SCRIPT_CLOSE ++ post.

Definition no_tag (html : jsstring) : Prop :=
  forall pre content post, ~ tag_at html pre content post.

(** [content] is the content of the first such tag of the page. *)
Definition first_tag (html content : jsstring) : Prop :=
  exists pre post,
    tag_at html pre content post
    /\ forall pre' content' post',
         tag_at html pre' content' post' -> (length pre <= length pre')%nat.

(** HashNotFoundError: the client has no class of that name; the errors of
    that kind are the two that [getItemHash] raises itself. *)
Definition HashNotFoundError (e : JsError) : Prop :=
  e = NOT_FOUND \/ e = NOT_EXTRACTED.

(** A URL scheme at the start of a string (RFC 3986): a letter, then
    letters, digits, [+], [-] or [.], then a colon. *)
Definition is_alpha (c : N) : bool :=
  ((65 <=? c) && (c <=? 90)) || ((97 <=? c) && (c <=? 122)).

Definition is_scheme_char (c : N) : bool :=
  is_alpha c || ((48 <=? c) && (c <=? 57)) || (c =? 43) || (c =? 45) || (c =? 46).

Fixpoint scheme_rest (s : jsstring) : bool :=
  match s with
  | [] => false
  | c :: r => if c =? 58 then true else is_scheme_char c && scheme_rest r
  end.

Definition starts_with_url_scheme (s : jsstring) : bool :=
  match s with
  | [] => false
  | c :: r => is_alpha c && scheme_rest r
  end.

(** ** Sample inputs

    The payloads, pages and requests that the examples below run on. *)

Module Samples.
Import Decimals.

Definition str (s : string) : Value Dec := VString (lit s).
Definition num (n : N) : Value Dec := VNumber (num_of_N n).

Definition object (fields : list (string * Value Dec)) : Value Dec :=
  VObject (List.map (fun kv => (lit (fst kv), snd kv)) fields).

(** [{ nextPage: "abc" }] *)
Definition cursor_abc : SearchParams Dec :=
  {| keywords := None; minPrice := None; maxPrice := None; distance := None;
     latitude := None; longitude := None; categoryId := None; orderBy := None;
     limit := None; nextPage := Some (lit "abc") |}.

(** [{ "title": null }] *)
Definition null_title : Value Dec := object [("title", VNull)].

(** A raw search item whose currency is there and is the empty string. *)
Definition item_empty_currency : Value Dec :=
  object [("id", str "101"); ("title", str "Mesa");
          ("price", object [("amount", num 40); ("currency", str "")]);
          ("web_slug", str "mesa-101")].

Definition item_reserved : Value Dec :=
  object [("id", str "102"); ("title", str "Silla");
          ("price", object [("amount", num 25); ("currency", str "EUR")]);
          ("web_slug", str "silla-102");
          ("reserved", object [("flag", VBool true)])].

Definition item_free : Value Dec :=
  object [("id", str "103"); ("title", str "Lampara");
          ("price", object [("amount", num 15); ("currency", str "USD")]);
          ("web_slug", str "lampara-103");
          ("reserved", object [("flag", VBool false)])].

(** The body of a search response with the given raw items. *)
Definition response (items : list (Value Dec)) : Value Dec :=
  object [("data", object [("section", object [("payload",
             object [("items", VArray items)])])]);
          ("meta", object [("next_page", str "cursor-2")])].

Definition upstream_returning (data : Value Dec) : Upstream Dec :=
  fun _ _ => Ok data.

(** [{ query: "mesa", message: "Hola!", limit: 50 }] *)
Definition contact_body : ContactBody Dec :=
  {| b_query := Some (lit "mesa"); b_message := Some (lit "Hola!");
     b_maxPrice := None; b_minPrice := None; b_limit := Some (num_of_N 50);
     b_distance := None; b_lat := None; b_lng := None |}.

(** What [simplifySearchItem] makes of [item_free]. *)
Definition simplified_free : SearchItem Dec :=
  {| si_id := str "103"; si_title := str "Lampara"; si_price := num 15;
     si_currency := str "USD"; si_city := VUndefined; si_distance := VUndefined;
     si_slug := str "lampara-103";
     si_url := lit "https://es.wallapop.com/item/lampara-103";
     si_image := VUndefined; si_sellerId := VUndefined;
     si_reserved := VBool false; si_shippable := VBool false;
     si_createdAt := VUndefined |}.

(** The answer of the composite route to [contact_body] when the upstream
    returns [item_reserved] and [item_free]. *)
Definition contact_answer : ContactResult Dec :=
  {| cr_items := [ {| ci_item := simplified_free;
                      chatFlow := follow_up (lit "Hola!") (lit "lampara-103") |} ];
     cr_total := num 1;
     cr_nextPage := str "cursor-2" |}.

(** A page with the script tag around [content]. *)
Definition page_with (content : jsstring) : jsstring :=
  lit "<html><head>" ++ SCRIPT_OPEN ++ lit " " ++ ID_ATTR ++ lit " " ++ TYPE_ATTR
  ++ content ++ SCRIPT_CLOSE ++ lit "</head><body></body></html>".

(** [{"props":{"pageProps":{"item":{"id":"qzmmv570nlzv"}}}}] *)
Definition next_data : jsstring :=
  lit "{" ++ [dq] ++ lit "props" ++ [dq] ++ lit ":{" ++ [dq] ++ lit "pageProps" ++ [dq]
  ++ lit ":{" ++ [dq] ++ lit "item" ++ [dq] ++ lit ":{" ++ [dq] ++ lit "id" ++ [dq]
  ++ lit ":" ++ [dq] ++ lit "qzmmv570nlzv" ++ [dq] ++ lit "}}}}".

(** A web with one page. *)
Definition web_with (address page : jsstring) : Web :=
  fun url => if jsstring_eqb url address then Ok page else Throw TypeError.

Definition MESA_URL : jsstring := lit "https://es.wallapop.com/item/mesa-101".

End Samples.

(** ** The rest of the client (client.ts) *)

Section ClientRest.
Context {Num : Type} `{JsNumber Num}.

(** [if (n) ...] on an optional number: it must be there and truthy. *)
Definition given_num (n : option Num) : option Num :=
  match n with
  | Some x => if num_truthy x then Some x else None
  | None => None
  end.

(** The query object of [getUserItems]. *)
Definition user_items_query (limit : option Num) (nextPage : option jsstring)
    : gmap string (QueryValue Num) :=
  let params : gmap string (QueryValue Num) := ∅ in
  let params := set_if "limit" (QNum <$> given_num limit) params in
  set_if "next_page" (QStr <$> given nextPage) params.

Definition getUser (api : Upstream Num) (userId : jsstring) : Result (Value Num) :=
  api (lit "/users/" ++ userId) ∅.

Definition getUserStats (api : Upstream Num) (userId : jsstring) : Result (Value Num) :=
  api (lit "/users/" ++ userId ++ lit "/stats") ∅.

Definition getUserItems (api : Upstream Num) (userId : jsstring)
    (limit : option Num) (nextPage : option jsstring) : Result (Value Num) :=
  api (lit "/users/" ++ userId ++ lit "/items") (user_items_query limit nextPage).

Definition getCategories (api : Upstream Num) : Result (Value Num) :=
  api (lit "/categories") ∅.

End ClientRest.

(** ** The rest of the JavaScript client *)

Module ClientJs.
Section ClientJs.
Context {Num : Type} `{JsNumber Num}.

Definition NOT_EXTRACTED : JsError :=
  Error (lit "Could not extract item hash from page").

Definition hash_of_page (html : jsstring) : Result (Value Num) :=
  match NEXT_DATA_match html with
  | Some (c :: r) =>
      do nextData <- JSON_parse (c :: r);
      let hash := item_id nextData in
      if truthy hash then Ok hash else Throw NOT_EXTRACTED
  | _ => Throw NOT_FOUND
  end.

Definition getItemHash (web : Web) (urlOrSlug : jsstring) : Run (Value Num) :=
  let url := fullUrl urlOrSlug in
  {| requested := [url];
     outcome := do html <- web url; hash_of_page html |}.

(** [getUserItems(userId, { limit = 20, nextPage } = {})] hands
    [{ limit, next_page: nextPage }] to [#get], which leaves out what is
    null or undefined. *)
Definition user_items_query (limit : option Num) (nextPage : option jsstring)
    : gmap string (QueryValue Num) :=
  let limit := default (num_of_N 20) limit in
  let params : gmap string (QueryValue Num) := ∅ in
  let params := set_if "limit" (Some (QNum limit)) params in
  set_if "next_page" (QStr <$> nextPage) params.

End ClientJs.
End ClientJs.

(** ** The composite route of the JavaScript server (server.js) *)

Module ServerJs.
Section ServerJs.
Context {Num : Type} `{JsNumber Num}.

(** [search] of the JavaScript client: the query is its own, the
    normalization is that of client.ts, line for line. *)
Definition search (api : Upstream Num) (params : SearchParams Num)
    : Result (SearchResult Num) :=
  do data <- api (lit "/search") (Js.search_query params);
  search_result data.

Record ChatHint : Type := { step1_getHash : jsstring; step2_chat : jsstring }.

(** [{ ...item, chatInstructions }] *)
Record ContactItem : Type := { item : SearchItem Num; chatInstructions : ChatHint }.

Record ContactResult : Type := {
  items : list ContactItem;
  total : Value Num;
  nextPage : Value Num
}.

Definition annotate (message : jsstring) (i : SearchItem Num) : Result ContactItem :=
  do slug <- ToString (si_slug i);
  Ok {| item := i;
        chatInstructions :=
          {| step1_getHash := lit "GET /api/items/hash?slug=" ++ slug;
             step2_chat := lit "POST /api/chat { itemHash: " ++ [dq] ++ lit "<hash>" ++ [dq]
                           ++ lit ", message: " ++ [dq] ++ message ++ [dq] ++ lit " }" |} |}.

Definition contact_result (message : jsstring) (results : SearchResult Num)
    : Result ContactResult :=
  let available := List.filter not_reserved (sr_items results) in
  do annotated <- mapM (annotate message) available;
  Ok {| items := annotated;
        total := VNumber (num_of_nat (length annotated));
        nextPage := sr_nextPage results |}.

Definition search_and_contact (api : Upstream Num) (body : ContactBody Num)
    : Response ContactResult :=
  match given (b_query body) with
  | None => Status400 (lit "query required")
  | Some query =>
  match given (b_message body) with
  | None => Status400 (lit "message required")
  | Some message =>
      match (do results <- search api (Js.contact_params body query);
             contact_result message results) with
      | Ok r => Status200 r
      | Throw e => Failed e
      end
  end end.

End ServerJs.
End ServerJs.

(** ** The instruction builder of the JavaScript sources (browser.js) *)

Module BrowserJs.

Record ChatInstructions : Type := {
  chatUrl : jsstring;
  message : jsstring;
  steps : list ChatStep
}.

(** [buildChatInstructions({ itemHash, message })] *)
Definition buildChatInstructions (itemHash message : jsstring) : ChatInstructions :=
  {| chatUrl := lit "https://es.wallapop.com/app/chat?itemId=" ++ itemHash;
     message := message;
     steps := [
       {| action := lit "navigate";
          url := Some (lit "https://es.wallapop.com/app/chat?itemId=" ++ itemHash);
          selector := None; text := None; submit := None;
          note := lit "Opens chat thread with seller for this item" |};
       {| action := lit "snapshot"; url := None; selector := None;
          text := None; submit := None;
          note := lit "Wait for page load, find " ++ TEXTBOX |};
       {| action := lit "click"; url := None; selector := Some TEXTBOX;
          text := None; submit := None;
          note := lit "Focus the message input" |};
       {| action := lit "type"; url := None; selector := None;
          text := Some message; submit := Some true;
          note := lit "Type message and press Enter to send" |};
       {| action := lit "snapshot"; url := None; selector := None;
          text := None; submit := None;
          note := lit "Verify message appears in chat with timestamp" |}
     ] |}.

End BrowserJs.

(** ** The other routes (server.ts) *)

(** What a route did: the pages it asked the web for, in order, and what it
    answered. *)
Record Handled (A : Type) : Type := { asked : list jsstring; answered : Response A }.
Arguments asked {A} h.
Arguments answered {A} h.

Definition respond {A} (r : Result A) : Response A :=
  match r with
  | Ok a => Status200 a
  | Throw e => Failed e
  end.

Section Routes.
Context {Num : Type} `{JsNumber Num}.

(** [Number(s)] on a string, the platform's conversion. *)
Variable Number : jsstring -> Num.

(** Safely extract a string from an express query parameter: the string
    itself, or the first of a repeated parameter when that is a string. *)
Definition qs (val : Value Num) : option jsstring :=
  match val with
  | VString s => Some s
  | VArray (VString s :: _) => Some s
  | _ => None
  end.

Definition qn (val : Value Num) : option Num :=
  match qs val with
  | Some s => Some (Number s)
  | None => None
  end.

(** The [SearchParams] that [GET /api/search] makes of [req.query]. *)
Definition search_params (query : list (jsstring * Value Num)) : SearchParams Num :=
  let param name := member (VObject query) (lit name) in
  {| keywords :=
       match given (qs (param "q")) with
       | Some s => Some s
       | None => qs (param "keywords")
       end;
     minPrice := qn (param "minPrice");
     maxPrice := qn (param "maxPrice");
     distance := qn (param "distance");
     latitude := qn (param "lat");
     longitude := qn (param "lng");
     categoryId := qn (param "category");
     orderBy := qs (param "orderBy");
     limit := qn (param "limit");
     nextPage := qs (param "nextPage") |}.

Definition search_route (api : Upstream Num) (query : list (jsstring * Value Num))
    : Response (SearchResult Num) :=
  respond (search api (search_params query)).

(** [GET /api/items/:id] *)
Definition item_route (api : Upstream Num) (id : jsstring) : Response (ItemDetails Num) :=
  respond (getItem api id).

(** The body of [POST /api/chat], as the handler types it. *)
Record ChatBody : Type := {
  c_itemUrl : option jsstring;
  c_itemHash : option jsstring;
  c_message : option jsstring
}.

(** What [buildChatInstructions] returns when its first argument is a value
    that the types take for a string: the value itself in [hash], and its
    string form wherever the template literal puts it. *)
Record ChatAnswer : Type := {
  ca_hash : Value Num;
  ca_chatUrl : jsstring;
  ca_message : jsstring;
  ca_steps : list ChatStep
}.

Definition chat_answer (itemHash : Value Num) (message : jsstring) : Result ChatAnswer :=
  do s <- ToString itemHash;
  let built := buildChatInstructions s message in
  Ok {| ca_hash := itemHash;
        ca_chatUrl := ci_chatUrl built;
        ca_message := message;
        ca_steps := steps built |}.

(** [POST /api/chat] *)
Definition chat_route (web : Web) (body : ChatBody) : Handled ChatAnswer :=
  match given (c_message body) with
  | None => {| asked := []; answered := Status400 (lit "message required") |}
  | Some message =>
      match given (c_itemUrl body), given (c_itemHash body) with
      | None, None =>
          {| asked := []; answered := Status400 (lit "itemUrl or itemHash required") |}
      | _, Some providedHash =>
          {| asked := [];
             answered := respond (chat_answer (VString providedHash) message) |}
      | Some itemUrl, None =>
          let run := getItemHash web itemUrl in
          {| asked := requested run;
             answered := respond (do hash <- outcome run; chat_answer hash message) |}
      end
  end.

End Routes.

Arguments ChatBody : clear implicits.
Arguments ChatAnswer Num : clear implicits.

(** ** The route table (server.ts)

    The routes in the order in which the server registers them.  Express
    hands a request to the first route whose method and path match; a
    handler of this server answers or passes an error on, and never passes
    the request on to a later route. *)

Inductive Method : Type := GET | POST.

(** A piece of a route path: a literal, or a parameter such as [:id]. *)
Inductive Piece : Type :=
| Lit (s : string)
| Param (name : string).

Inductive Handler : Type :=
| H_health | H_search | H_item | H_item_hash
| H_user | H_user_stats | H_user_items
| H_categories | H_chat | H_search_and_contact.

Definition ROUTES : list (Method * list Piece * Handler) :=
  [ (GET, [Lit "health"], H_health);
    (GET, [Lit "api"; Lit "search"], H_search);
    (GET, [Lit "api"; Lit "items"; Param "id"], H_item);
    (GET, [Lit "api"; Lit "items"; Lit "hash"], H_item_hash);
    (GET, [Lit "api"; Lit "users"; Param "id"], H_user);
    (GET, [Lit "api"; Lit "users"; Param "id"; Lit "stats"], H_user_stats);
    (GET, [Lit "api"; Lit "users"; Param "id"; Lit "items"], H_user_items);
    (GET, [Lit "api"; Lit "categories"], H_categories);
    (POST, [Lit "api"; Lit "chat"], H_chat);
    (POST, [Lit "api"; Lit "search-and-contact"], H_search_and_contact) ].

Definition method_eqb (a b : Method) : bool :=
  match a, b with
  | GET, GET | POST, POST => true
  | _, _ => false
  end.

(** Route paths match without regard to the case of letters. *)
Definition lower (c : N) : N := if (65 <=? c) && (c <=? 90) then c + 32 else c.

Definition same_piece (s : string) (segment : jsstring) : bool :=
  jsstring_eqb (List.map lower (lit s)) (List.map lower segment).

(** A path, as its segments between slashes, against a route path; the
    result is the parameters. *)
Fixpoint match_path (pattern : list Piece) (path : list jsstring)
    : option (list (string * jsstring)) :=
  match pattern, path with
  | [], [] => Some []
  | Lit s :: pattern', segment :: path' =>
      if same_piece s segment then match_path pattern' path' else None
  | Param name :: pattern', segment :: path' =>
      match segment with
      | [] => None
      | _ :: _ =>
          match match_path pattern' path' with
          | Some params => Some ((name, segment) :: params)
          | None => None
          end
      end
  | _, _ => None
  end.

Fixpoint dispatch_in (routes : list (Method * list Piece * Handler))
    (m : Method) (path : list jsstring) : option (Handler * list (string * jsstring)) :=
  match routes with
  | [] => None
  | (m', pattern, h) :: rest =>
      if method_eqb m' m then
        match match_path pattern path with
        | Some params => Some (h, params)
        | None => dispatch_in rest m path
        end
      else dispatch_in rest m path
  end.

Definition dispatch (m : Method) (path : list jsstring)
    : option (Handler * list (string * jsstring)) :=
  dispatch_in ROUTES m path.

(** ** More sample inputs *)

Module MoreSamples.
Import Decimals Samples.

(** [Number(s)] for the strings of digits that the examples use. *)
Fixpoint digits_value (s : jsstring) (acc : N) : N :=
  match s with
  | [] => acc
  | c :: r => digits_value r (10 * acc + (c - 48))
  end.

Definition Number_of_digits (s : jsstring) : Dec := num_of_N (digits_value s 0).

(** [?q=mesa&keywords=silla&limit=1000&nextPage=abc] *)
Definition query_with_cursor : list (jsstring * Value Dec) :=
  [(lit "q", str "mesa"); (lit "keywords", str "silla");
   (lit "limit", str "1000"); (lit "nextPage", str "abc")].

(** [?q=mesa&q=silla&limit=1000] *)
Definition query_repeated : list (jsstring * Value Dec) :=
  [(lit "q", VArray [str "mesa"; str "silla"]); (lit "limit", str "1000")].

Definition chat_with_hash : ChatBody :=
  {| c_itemUrl := Some MESA_URL; c_itemHash := Some (lit "qzmmv570nlzv");
     c_message := Some (lit "Hola!") |}.

Definition chat_with_url : ChatBody :=
  {| c_itemUrl := Some MESA_URL; c_itemHash := None; c_message := Some (lit "Hola!") |}.

Definition chat_without_message : ChatBody :=
  {| c_itemUrl := Some MESA_URL; c_itemHash := Some (lit "qzmmv570nlzv");
     c_message := None |}.

(** [{ query: "mesa", message: "Hola!", maxPrice: 0 }] *)
Definition contact_body_free : ContactBody Dec :=
  {| b_query := Some (lit "mesa"); b_message := Some (lit "Hola!");
     b_maxPrice := Some (num_of_N 0); b_minPrice := None; b_limit := None;
     b_distance := None; b_lat := None; b_lng := None |}.

(** A raw item of full details with a wrapped title and a cash price of 0. *)
Definition details_free : Value Dec :=
  object [("id", str "103");
          ("title", object [("original", str "Lampara")]);
          ("description", str "Se regala");
          ("price", object [("cash", object [("amount", num 0); ("currency", str "EUR")]);
                            ("amount", num 15)]);
          ("web_slug", str "lampara-103");
          ("images", VArray [VNull; VNull; VNull])].

(** [{ keywords: "mesa", maxPrice: 50, orderBy: "" }] *)
Definition params_mesa : SearchParams Dec :=
  {| keywords := Some (lit "mesa"); minPrice := None; maxPrice := Some (num_of_N 50);
     distance := None; latitude := None; longitude := None; categoryId := None;
     orderBy := Some []; limit := None; nextPage := None |}.

(** A response whose payload holds an object where the items should be. *)
Definition response_with_object : Value Dec :=
  object [("data", object [("section", object [("payload",
             object [("items", object [("0", item_free)])])])])].

End MoreSamples.

(** * Properties *)

(** ** Strings and results *)

Lemma jsstring_eqb_eq a b : jsstring_eqb a b = true <-> a = b.
Proof. unfold jsstring_eqb. apply bool_decide_eq_true. Qed.

Lemma jsstring_eqb_refl a : jsstring_eqb a a = true.
Proof. now apply jsstring_eqb_eq. Qed.

Lemma strip_prefix_Some p s r : strip_prefix p s = Some r <-> s = p ++ r.
Proof.
  revert s; induction p as [|a p IH]; intros s; simpl.
  - split; congruence.
  - destruct s as [|b s]; [split; discriminate|].
    destruct (N.eqb_spec a b) as [->|Hne].
    + rewrite IH. split; congruence.
    + split; [discriminate | intros [= ? ?]; congruence].
Qed.

Lemma strip_prefix_app p r : strip_prefix p (p ++ r) = Some r.
Proof. now apply strip_prefix_Some. Qed.

Lemma startsWith_prefix s p : startsWith s p = true <-> exists r, s = p ++ r.
Proof.
  unfold startsWith. destruct (strip_prefix p s) as [r|] eqn:E.
  - apply strip_prefix_Some in E. split; eauto.
  - split; [discriminate|]. intros [r ->]. now rewrite strip_prefix_app in E.
Qed.

Lemma mapM_length {A B} (f : A -> Result B) l bs :
  mapM f l = Ok bs -> length bs = length l.
Proof.
  revert bs; induction l as [|a l IH]; simpl; intros bs E.
  - now inversion E.
  - destruct (f a); simpl in E; [|discriminate].
    destruct (mapM f l); simpl in E; [|discriminate].
    inversion E; subst; simpl. f_equal. now apply IH.
Qed.

Lemma mapM_Forall2 {A B} (f : A -> Result B) l bs :
  mapM f l = Ok bs <-> Forall2 (fun a b => f a = Ok b) l bs.
Proof.
  revert bs; induction l as [|a l IH]; simpl; intros bs.
  - split; [intros [= <-]; constructor | intros E; now inversion E].
  - split.
    + destruct (f a) eqn:Ha; simpl; [|discriminate].
      destruct (mapM f l) eqn:Hl; simpl; [|discriminate].
      intros [= <-]. constructor; [assumption | now apply IH].
    + intros E; inversion E as [|? b ? bs' Hb Hbs]; subst.
      rewrite Hb; simpl. apply IH in Hbs. now rewrite Hbs.
Qed.

(** ** The instruction builder *)

(** C2.  Whatever the hash and the message, [buildChatInstructions] returns
    five steps in the order navigate, snapshot (wait for render), click,
    type, snapshot; the navigate step's url and the chatUrl field are both
    the chat base followed by [?itemId=] and the hash; the type step carries
    the message, with submit set. *)
Theorem buildChatInstructions_steps (itemHash msg : jsstring) :
  let r := buildChatInstructions itemHash msg in
  length (steps r) = 5%nat
  /\ List.map action (steps r)
     = [lit "navigate"; lit "snapshot"; lit "click"; lit "type"; lit "snapshot"]
  /\ List.map url (steps r)
     = [Some (CHAT_BASE ++ lit "?itemId=" ++ itemHash); None; None; None; None]
  /\ ci_chatUrl r = CHAT_BASE ++ lit "?itemId=" ++ itemHash
  /\ List.map text (steps r) = [None; None; None; Some msg; None]
  /\ List.map submit (steps r) = [None; None; None; Some true; None]
  /\ hash r = itemHash
  /\ message r = msg.
Proof. repeat split. Qed.

Example buildChatInstructions_hola :
  let r := buildChatInstructions (lit "qzmmv570nlzv") (lit "Hola!") in
  ci_chatUrl r = lit "https://es.wallapop.com/app/chat?itemId=qzmmv570nlzv"
  /\ List.map url (steps r)
     = [Some (lit "https://es.wallapop.com/app/chat?itemId=qzmmv570nlzv");
        None; None; None; None]
  /\ List.map text (steps r) = [None; None; None; Some (lit "Hola!"); None].
Proof. repeat split. Qed.

(** The builder and the client's [chatUrl] agree on the address. *)
Lemma buildChatInstructions_chatUrl (itemHash msg : jsstring) :
  ci_chatUrl (buildChatInstructions itemHash msg) = chatUrl itemHash.
Proof. reflexivity. Qed.

(** ** The upstream query of a search *)

Section SearchQuery.
Context {Num : Type} `{JsNumber Num}.

Lemma search_query_given_cursor (p : SearchParams Num) cursor :
  given (nextPage p) = Some cursor ->
  search_query p = cursor_query p cursor /\ Js.search_query p = cursor_query p cursor.
Proof.
  intros E. unfold search_query, Js.search_query. rewrite E. split; reflexivity.
Qed.

(** C3, amended.  When the cursor is present and not the empty string, the
    query that [search] sends (in both clients) holds the cursor, the fixed
    [step] and [source] fields and the page size [limit] (20 unless the
    caller gave one), and nothing else: no keywords, price bounds,
    coordinates, distance, category or sort order. *)
Theorem search_query_cursor (p : SearchParams Num) (c : N) (r : jsstring) :
  nextPage p = Some (c :: r) ->
  search_query p = cursor_query p (c :: r)
  /\ Js.search_query p = cursor_query p (c :: r)
  /\ search_query p !! "next_page" = Some (QStr (c :: r))
  /\ search_query p !! "limit" = Some (QNum (default (num_of_N 20) (limit p)))
  /\ dom (search_query p) = ({["step"; "source"; "limit"; "next_page"]} : gset string)
  /\ Forall (fun k => search_query p !! k = None) CURSOR_EXCLUDES.
Proof.
  intros E.
  destruct (search_query_given_cursor p (c :: r)) as [E1 E2]; [now rewrite E|].
  rewrite E1, E2. unfold cursor_query.
  split; [reflexivity|]. split; [reflexivity|].
  split; [now simplify_map_eq|]. split; [now simplify_map_eq|]. split.
  - rewrite !dom_insert_L, dom_empty_L. set_solver.
  - unfold CURSOR_EXCLUDES.
    repeat (constructor; [now simplify_map_eq|]). constructor.
Qed.

Lemma lookup_set_if_ne k k' v (q : gmap string (QueryValue Num)) :
  k <> k' -> set_if k v q !! k' = q !! k'.
Proof. intros Hne. destruct v; simpl; [now apply lookup_insert_ne | reflexivity]. Qed.

(** The page size goes out on every search, cursor or not. *)
Lemma search_query_limit (p : SearchParams Num) :
  search_query p !! "limit" = Some (QNum (default (num_of_N 20) (limit p)))
  /\ Js.search_query p !! "limit" = Some (QNum (default (num_of_N 20) (limit p))).
Proof.
  unfold search_query, Js.search_query.
  destruct (given (nextPage p)); split;
    repeat first [rewrite lookup_set_if_ne by done | rewrite lookup_insert_ne by done];
    apply lookup_insert_eq.
Qed.

(** Without a cursor, or with the empty string for one, the filters go out
    and no cursor does. *)
Lemma search_query_no_cursor (p : SearchParams Num) :
  given (nextPage p) = None ->
  search_query p !! "next_page" = None
  /\ search_query p !! "latitude" = Some (QNum (default DEFAULT_LAT (latitude p)))
  /\ search_query p !! "longitude" = Some (QNum (default DEFAULT_LNG (longitude p)))
  /\ search_query p !! "keywords" = QStr <$> given (keywords p).
Proof.
  intros E. unfold search_query. rewrite E. unfold set_if.
  destruct (given (keywords p)), (minPrice p), (maxPrice p), (distance p),
    (categoryId p), (given (orderBy p)); simpl; repeat split;
    now simplify_map_eq.
Qed.

End SearchQuery.

(** ** The normalizers *)

Section Normalizers.
Context {Num : Type} `{JsNumber Num}.

Lemma get_defined (v : Value Num) k : nullish v = false -> get v k = Ok (member v k).
Proof. unfold get. now intros ->. Qed.

Lemma get_throws (v : Value Num) k : nullish v = true -> get v k = Throw TypeError.
Proof. unfold get. now intros ->. Qed.

Lemma member_absent (props : list (jsstring * Value Num)) k :
  lookup_prop k props = None -> member (VObject props) k = VUndefined.
Proof. simpl. now intros ->. Qed.

Lemma or_else_falsy (a b : Value Num) : truthy a = false -> or_else a b = b.
Proof. unfold or_else. now intros ->. Qed.

Lemma or_else_truthy (a b : Value Num) : truthy a = true -> or_else a b = a.
Proof. unfold or_else. now intros ->. Qed.

(** [x || false] is [false] itself as soon as it is falsy. *)
Lemma or_false_falsy (a : Value Num) :
  truthy (or_else a (VBool false)) = false -> or_else a (VBool false) = VBool false.
Proof. unfold or_else. destruct (truthy a) eqn:E; [congruence | reflexivity]. Qed.

(** [x || []] is never null or undefined. *)
Lemma or_else_defined (a : Value Num) l : nullish (or_else a (VArray l)) = false.
Proof.
  unfold or_else. destruct a as [| |b|n|s|?|?]; simpl; try reflexivity.
  - now destruct b.
  - now destruct (num_truthy n).
  - now destruct s.
Qed.

Lemma unwrap_original_defined (x : Value Num) :
  x <> VNull -> exists y, unwrap_original x = Ok y.
Proof.
  intros Hx. unfold unwrap_original.
  destruct x; simpl; try (eexists; reflexivity). congruence.
Qed.

(** The search normalizer fails on nothing but a null or undefined item and
    a slug that has no string form. *)
Lemma simplifySearchItem_defined (item : Value Num) slug :
  nullish item = false ->
  ToString (member item (lit "web_slug")) = Ok slug ->
  exists it, simplifySearchItem item = Ok it
    /\ si_currency it = or_else (raw_currency item) EUR
    /\ si_slug it = member item (lit "web_slug")
    /\ si_url it = ITEM_URL ++ slug
    /\ si_reserved it = or_else (opt (member item (lit "reserved")) (lit "flag")) (VBool false).
Proof.
  intros Hn Hs. unfold simplifySearchItem, item_url.
  rewrite !(get_defined item) by assumption. cbn [bind]. rewrite Hs. cbn [bind].
  eexists. split; [reflexivity|]. repeat split.
Qed.

Lemma simplifySearchItem_slug (item : Value Num) it :
  simplifySearchItem item = Ok it -> exists slug, ToString (si_slug it) = Ok slug.
Proof.
  unfold simplifySearchItem, item_url. intros E.
  destruct (nullish item) eqn:Hn.
  - rewrite get_throws in E by assumption. discriminate.
  - rewrite !(get_defined item) in E by assumption. cbn [bind] in E.
    destruct (ToString (member item (lit "web_slug"))) as [slug|] eqn:Hs;
      cbn [bind] in E; [|discriminate].
    injection E as <-. now exists slug.
Qed.

(** C5, amended.  A response whose payload holds N raw items, none of them
    null and each with a slug that has a string form, normalizes to exactly
    N items; each of them has the default currency when the raw currency is
    absent or otherwise falsy (null, the empty string, zero, false) and the
    raw currency when that is truthy. *)
Theorem search_result_currency (data : Value Num) (raws : list (Value Num)) :
  raw_items data = VArray raws ->
  Forall (fun raw => nullish raw = false
                     /\ exists slug, ToString (member raw (lit "web_slug")) = Ok slug) raws ->
  exists r, search_result data = Ok r
    /\ length (sr_items r) = length raws
    /\ Forall2 (fun raw it =>
                  (raw_currency raw = VUndefined -> si_currency it = EUR)
                  /\ (truthy (raw_currency raw) = false -> si_currency it = EUR)
                  /\ (truthy (raw_currency raw) = true -> si_currency it = raw_currency raw))
               raws (sr_items r).
Proof.
  intros Hitems Hraws. unfold search_result. rewrite Hitems. cbn [Array_map].
  clear Hitems.
  assert (exists its, mapM simplifySearchItem raws = Ok its
            /\ Forall2 (fun raw it => si_currency it = or_else (raw_currency raw) EUR) raws its)
    as (its & Hmap & Hcur).
  { induction Hraws as [|raw raws' [Hn [slug Hs]] _ IH].
    - exists []. split; [reflexivity | constructor].
    - destruct IH as (its & Hmap & Hcur).
      destruct (simplifySearchItem_defined raw slug Hn Hs) as (it & Hit & Hc & _).
      exists (it :: its). split; [|now constructor].
      simpl. rewrite Hit. cbn [bind]. rewrite Hmap. reflexivity. }
  rewrite Hmap. cbn [bind]. eexists. split; [reflexivity|]. cbn [sr_items]. split.
  - now apply mapM_length in Hmap.
  - eapply Forall2_impl; [exact Hcur|]. intros raw it ->. repeat split.
    + intros ->. reflexivity.
    + apply or_else_falsy.
    + apply or_else_truthy.
Qed.

(** C4, amended.  On every object whose title and description are not null
    and whose slug has a string form, [simplifyItemDetails] of client.ts
    returns an ItemDetails; its price is 0 when the object has no price, its
    counters are null when it has none, and its image count is 0 when it has
    no images. *)
Theorem simplifyItemDetails_defaults (props : list (jsstring * Value Num)) (slug : jsstring) :
  member (VObject props) (lit "title") <> VNull ->
  member (VObject props) (lit "description") <> VNull ->
  ToString (member (VObject props) (lit "web_slug")) = Ok slug ->
  exists d, simplifyItemDetails (VObject props) = Ok d
    /\ it_url d = ITEM_URL ++ slug
    /\ (lookup_prop (lit "price") props = None -> it_price d = zero)
    /\ (lookup_prop (lit "counters") props = None -> it_counters d = VNull)
    /\ (lookup_prop (lit "images") props = None -> it_images d = zero).
Proof.
  intros Ht Hd Hs.
  destruct (unwrap_original_defined _ Ht) as [title Etitle].
  destruct (unwrap_original_defined _ Hd) as [desc Edesc].
  unfold simplifyItemDetails, item_url.
  rewrite !(get_defined (VObject props)) by reflexivity. cbn [bind].
  rewrite Etitle, Edesc, Hs. cbn [bind].
  rewrite get_defined by apply or_else_defined.
  cbn [bind]. eexists. split; [reflexivity|].
  cbn [it_url it_price it_counters it_images]. repeat split.
  - intros E. now rewrite (member_absent _ _ E).
  - intros E. now rewrite (member_absent _ _ E).
  - intros E. now rewrite (member_absent _ _ E).
Qed.

(** The one missing every optional field. *)
Example simplifyItemDetails_empty :
  simplifyItemDetails (VObject [] : Value Num)
  = Ok {| it_id := VUndefined; it_title := VUndefined; it_description := VUndefined;
          it_price := zero; it_currency := EUR; it_city := VUndefined;
          it_seller := {| seller_id := VUndefined; seller_name := VUndefined |};
          it_slug := VUndefined; it_url := ITEM_URL ++ lit "undefined";
          it_images := zero; it_reserved := VBool false; it_sold := VBool false;
          it_counters := VNull; it_createdAt := VUndefined |}.
Proof. reflexivity. Qed.

(** C8.  The two [simplifyItemDetails] are not the same function: on a
    payload without any price field the one of client.ts gives the price 0
    and the one of the JavaScript client leaves it undefined. *)
Theorem simplifyItemDetails_price_diverges :
  exists raw : Value Num,
    member raw (lit "price") = VUndefined
    /\ (exists a, simplifyItemDetails raw = Ok a /\ it_price a = zero)
    /\ (exists b, Js.simplifyItemDetails raw = Ok b /\ it_price b = VUndefined)
    /\ simplifyItemDetails raw <> Js.simplifyItemDetails raw.
Proof.
  exists (VObject []). split; [reflexivity|].
  split; [eexists; split; reflexivity|].
  split; [eexists; split; reflexivity|].
  intros E. apply (f_equal (fun r => match r with Ok d => it_price d | Throw _ => VNull end)) in E.
  discriminate E.
Qed.

(** The search normalizer never had the default: both clients leave the
    price of a search item undefined when the payload has none. *)
Lemma simplifySearchItem_no_price_default (props : list (jsstring * Value Num)) it :
  lookup_prop (lit "price") props = None ->
  simplifySearchItem (VObject props) = Ok it -> si_price it = VUndefined.
Proof.
  intros E. unfold simplifySearchItem.
  rewrite !(get_defined (VObject props)) by reflexivity. cbn [bind].
  destruct (item_url _); cbn [bind]; [|discriminate].
  intros [= <-]. cbn [si_price]. now rewrite E.
Qed.

End Normalizers.

(** ** The search result and the composite route *)

Section Composite.
Context {Num : Type} `{JsNumber Num}.

(** Every item of a search result was made by the search normalizer. *)
Lemma search_result_items (data : Value Num) r :
  search_result data = Ok r ->
  exists raws, raw_items data = VArray raws
    /\ Forall2 (fun raw it => simplifySearchItem raw = Ok it) raws (sr_items r)
    /\ sr_total r = VNumber (num_of_nat (length raws)).
Proof.
  unfold search_result. intros E.
  destruct (raw_items data) as [| | | | |raws|] eqn:Hitems; try discriminate E.
  cbn [Array_map] in E.
  destruct (mapM simplifySearchItem raws) as [its|] eqn:Hmap; cbn [bind] in E;
    [|discriminate].
  rewrite get_defined in E by reflexivity. cbn [bind] in E.
  injection E as <-. exists raws. split; [reflexivity|]. split.
  - now apply mapM_Forall2.
  - reflexivity.
Qed.

Lemma search_items (api : Upstream Num) p r :
  search api p = Ok r ->
  Forall (fun it => exists raw, simplifySearchItem raw = Ok it) (sr_items r).
Proof.
  unfold search. destruct (api _ _) as [data|]; cbn [bind]; [|discriminate].
  intros E. destruct (search_result_items _ _ E) as (raws & _ & Hall & _).
  induction Hall; constructor; eauto.
Qed.

Lemma simplifySearchItem_reserved (raw : Value Num) it :
  simplifySearchItem raw = Ok it ->
  truthy (si_reserved it) = false -> si_reserved it = VBool false.
Proof.
  unfold simplifySearchItem. intros E.
  destruct (nullish raw) eqn:Hn.
  - rewrite get_throws in E by assumption. discriminate.
  - rewrite !(get_defined raw) in E by assumption. cbn [bind] in E.
    destruct (item_url _); cbn [bind] in E; [|discriminate].
    injection E as <-. cbn [si_reserved]. apply or_false_falsy.
Qed.

Lemma annotate_all msg (l : list (SearchItem Num)) cis :
  mapM (annotate msg) l = Ok cis ->
  List.map ci_item cis = l
  /\ Forall (fun ci => exists slug, ToString (si_slug (ci_item ci)) = Ok slug
                                    /\ chatFlow ci = follow_up msg slug) cis.
Proof.
  revert cis; induction l as [|it l IH]; simpl; intros cis E.
  - injection E as <-. split; [reflexivity | constructor].
  - unfold annotate at 1 in E.
    destruct (ToString (si_slug it)) as [slug|] eqn:Hs; cbn [bind] in E; [|discriminate].
    destruct (mapM (annotate msg) l) as [cis'|]; cbn [bind] in E; [|discriminate].
    injection E as <-. destruct (IH _ eq_refl) as [Hmap Hall]. split.
    + simpl. now rewrite Hmap.
    + constructor; [|assumption]. exists slug. now split.
Qed.

Lemma annotate_defined msg (l : list (SearchItem Num)) :
  Forall (fun it => exists slug, ToString (si_slug it) = Ok slug) l ->
  exists cis, mapM (annotate msg) l = Ok cis.
Proof.
  induction 1 as [|it l [slug Hs] _ [cis IH]]; simpl.
  - now exists [].
  - unfold annotate at 1. rewrite Hs. cbn [bind]. rewrite IH. cbn [bind]. eauto.
Qed.

Lemma filter_Forall {A} (f : A -> bool) (P : A -> Prop) l :
  Forall P l -> Forall P (List.filter f l).
Proof.
  induction 1 as [|a l Ha _ IH]; simpl; [constructor|].
  destruct (f a); [now constructor | assumption].
Qed.

Lemma filter_all {A} (f : A -> bool) l : Forall (fun a => f a = true) (List.filter f l).
Proof.
  induction l as [|a l IH]; simpl; [constructor|].
  destruct (f a) eqn:E; [now constructor | assumption].
Qed.

(** C10.  The total of a search result is the number of items in that same
    result, and the total that the composite route answers is the number of
    items it answers, those left once the reserved ones are gone; no count
    from the upstream has a part in either. *)
Theorem totals_count_returned (data : Value Num) (r : SearchResult Num) :
  search_result data = Ok r ->
  sr_total r = VNumber (num_of_nat (length (sr_items r)))
  /\ forall msg out, contact_result msg r = Ok out ->
       cr_total out = VNumber (num_of_nat (length (cr_items out)))
       /\ length (cr_items out) = length (List.filter not_reserved (sr_items r)).
Proof.
  intros E. destruct (search_result_items _ _ E) as (raws & _ & Hall & Htotal). split.
  - rewrite Htotal. do 2 f_equal. symmetry.
    clear -Hall. induction Hall; simpl; congruence.
  - intros msg out. unfold contact_result.
    destruct (mapM _ _) as [cis|] eqn:Hmap; cbn [bind]; [|discriminate].
    intros [= <-]. cbn [cr_total cr_items]. split; [reflexivity|].
    now apply mapM_length in Hmap.
Qed.

(** C6.  Whatever the search returned, an answer of the composite route
    holds exactly the items whose reserved flag is not set, in their order;
    the flag of each is false, and each carries the two-step follow-up
    (fetch the hash for its slug, then post the message with the hash put
    in for the placeholder), not a hash. *)
Theorem search_and_contact_available (api : Upstream Num) (body : ContactBody Num)
    (out : ContactResult Num) :
  search_and_contact api body = Status200 out ->
  exists query msg results,
    given (b_query body) = Some query
    /\ given (b_message body) = Some msg
    /\ search api (contact_params body query) = Ok results
    /\ List.map ci_item (cr_items out) = List.filter not_reserved (sr_items results)
    /\ Forall (fun ci =>
                 si_reserved (ci_item ci) = VBool false
                 /\ exists slug, ToString (si_slug (ci_item ci)) = Ok slug
                                 /\ chatFlow ci = follow_up msg slug)
              (cr_items out).
Proof.
  unfold search_and_contact. intros E.
  destruct (given (b_query body)) as [query|]; [|discriminate].
  destruct (given (b_message body)) as [msg|]; [|discriminate].
  destruct (search api (contact_params body query)) as [results|] eqn:Hsearch;
    cbn [bind] in E; [|discriminate].
  unfold contact_result in E.
  destruct (mapM _ _) as [cis|] eqn:Hmap; cbn [bind] in E; [|discriminate].
  injection E as <-. cbn [cr_items].
  destruct (annotate_all _ _ _ Hmap) as [Hitems Hflow].
  exists query, msg, results.
  split; [reflexivity|]. split; [reflexivity|]. split; [exact Hsearch|].
  split; [assumption|].
  assert (Forall (fun it => not_reserved it = true
                            /\ exists raw, simplifySearchItem raw = Ok it)
                 (List.map ci_item cis)) as Hres.
  { rewrite Hitems. apply List.Forall_and; [apply filter_all|].
    apply filter_Forall. eapply search_items, Hsearch. }
  clear Hitems Hmap. induction Hflow as [|ci cis Hci _ IH]; [constructor|].
  inversion Hres as [|? ? [Hnr [raw Hraw]] Hres']; subst.
  constructor; [|now apply IH]. split; [|assumption].
  apply (simplifySearchItem_reserved raw); [assumption|].
  unfold not_reserved in Hnr. now destruct (truthy (si_reserved (ci_item ci))).
Qed.

(** The route does answer whenever the search does: an item that came out
    of the normalizer has a slug with a string form. *)
Lemma search_and_contact_answers (api : Upstream Num) (body : ContactBody Num)
    query msg results :
  given (b_query body) = Some query ->
  given (b_message body) = Some msg ->
  search api (contact_params body query) = Ok results ->
  exists out, search_and_contact api body = Status200 out.
Proof.
  intros Hq Hm Hs. unfold search_and_contact. rewrite Hq, Hm, Hs. cbn [bind].
  unfold contact_result.
  destruct (annotate_defined msg (List.filter not_reserved (sr_items results)))
    as [cis Hcis].
  { apply filter_Forall. eapply List.Forall_impl; [|eapply search_items, Hs].
    intros it [raw Hraw]. eapply simplifySearchItem_slug, Hraw. }
  rewrite Hcis. cbn [bind]. eauto.
Qed.

(** What a search makes of the upstream depends on the upstream at one
    point only, the query that it sends. *)
Lemma search_asks (api1 api2 : Upstream Num) (p : SearchParams Num) :
  api1 (lit "/search") (search_query p) = api2 (lit "/search") (search_query p) ->
  search api1 p = search api2 p.
Proof. unfold search. now intros ->. Qed.

Lemma search_js_asks (api1 api2 : Upstream Num) (p : SearchParams Num) :
  api1 (lit "/search") (Js.search_query p) = api2 (lit "/search") (Js.search_query p) ->
  ServerJs.search api1 p = ServerJs.search api2 p.
Proof. unfold ServerJs.search. now intros ->. Qed.

(** C9.  A composite request with a query and a message makes one upstream
    call, for [/search], in both servers.  The query of that call holds as
    its page size [Math.min] of the caller's limit (5 when the caller gave
    none) and 20, which is never above 20.  The call is made: when the
    upstream fails on that query, the route answers with that failure.  And
    no other is: the answer of the route is the same for two upstreams that
    agree on that query. *)
Theorem composite_limit_capped (body : ContactBody Num) (query msg : jsstring) :
  given (b_query body) = Some query ->
  given (b_message body) = Some msg ->
  let sent := num_min (default (num_of_N 5) (b_limit body)) (num_of_N 20) in
  let asked := search_query (contact_params body query) in
  let asked_js := Js.search_query (Js.contact_params body query) in
  limit (contact_params body query) = Some sent
  /\ limit (Js.contact_params body query) = Some sent
  /\ asked !! "limit" = Some (QNum sent)
  /\ asked_js !! "limit" = Some (QNum sent)
  /\ num_ltb (num_of_N 20) sent = false
  /\ match b_limit body with
     | Some requested => sent = num_min requested (num_of_N 20)
     | None => sent = num_of_N 5
     end
  /\ (forall api e, api (lit "/search") asked = Throw e ->
        search_and_contact api body = Failed e)
  /\ (forall api1 api2, api1 (lit "/search") asked = api2 (lit "/search") asked ->
        search_and_contact api1 body = search_and_contact api2 body)
  /\ (forall api data, api (lit "/search") asked = Ok data ->
        search_and_contact api body
        = match (do results <- search_result data; contact_result msg results) with
          | Ok r => Status200 r
          | Throw e => Failed e
          end)
  /\ (forall api e, api (lit "/search") asked_js = Throw e ->
        ServerJs.search_and_contact api body = Failed e)
  /\ (forall api1 api2, api1 (lit "/search") asked_js = api2 (lit "/search") asked_js ->
        ServerJs.search_and_contact api1 body = ServerJs.search_and_contact api2 body)
  /\ (forall api data, api (lit "/search") asked_js = Ok data ->
        ServerJs.search_and_contact api body
        = match (do results <- search_result data; ServerJs.contact_result msg results) with
          | Ok r => Status200 r
          | Throw e => Failed e
          end).
Proof.
  intros Hq Hm sent asked asked_js.
  split; [reflexivity|]. split; [reflexivity|].
  split; [apply (search_query_limit (contact_params body query))|].
  split; [apply (search_query_limit (Js.contact_params body query))|].
  split; [apply num_min_not_above|].
  split.
  { subst sent. destruct (b_limit body); [reflexivity|].
    simpl. unfold num_of_N. now rewrite num_min_integers. }
  unfold search_and_contact, ServerJs.search_and_contact. rewrite Hq, Hm.
  split; [|split; [|split; [|split; [|split]]]].
  - intros api e E. unfold search. fold asked. now rewrite E.
  - intros api1 api2 E. now rewrite (search_asks api1 api2 _ E).
  - intros api data E. unfold search. fold asked. now rewrite E.
  - intros api e E. unfold ServerJs.search. fold asked_js. now rewrite E.
  - intros api1 api2 E. now rewrite (search_js_asks api1 api2 _ E).
  - intros api data E. unfold ServerJs.search. fold asked_js. now rewrite E.
Qed.

End Composite.

(** ** The regular expression *)

Lemma span_app f s a b :
  span f s = (a, b) ->
  s = a ++ b
  /\ Forall (fun c => f c = true) a
  /\ match b with [] => True | c :: _ => f c = false end.
Proof.
  revert a b; induction s as [|c s IH]; simpl; intros a b E.
  - injection E as <- <-. repeat split. constructor.
  - destruct (f c) eqn:Hc.
    + destruct (span f s) as [a' b']. injection E as <- <-.
      destruct (IH _ _ eq_refl) as (-> & Ha & Hb). repeat split; [|assumption].
      now constructor.
    + injection E as <- <-. repeat split; [constructor | assumption].
Qed.

Lemma span_run f a b :
  Forall (fun c => f c = true) a ->
  match b with [] => True | c :: _ => f c = false end ->
  span f (a ++ b) = (a, b).
Proof.
  intros Ha Hb. induction Ha as [|c a Hc _ IH]; simpl.
  - destruct b as [|c b]; [reflexivity|]. simpl. now rewrite Hb.
  - now rewrite Hc, IH.
Qed.

Lemma one_or_more_Some f s a b :
  one_or_more f s = Some (a, b) <-> a <> [] /\ span f s = (a, b).
Proof.
  unfold one_or_more. destruct (span f s) as [[|c run] rest]; split.
  - discriminate.
  - intros [Ha [= <- <-]]. congruence.
  - intros [= <- <-]. split; [discriminate | reflexivity].
  - intros [_ [= <- <-]]. reflexivity.
Qed.

Lemma one_or_more_run f a b :
  a <> [] -> Forall (fun c => f c = true) a ->
  match b with [] => True | c :: _ => f c = false end ->
  one_or_more f (a ++ b) = Some (a, b).
Proof. intros Hne Ha Hb. apply one_or_more_Some. split; [assumption | now apply span_run]. Qed.

(** The pieces that follow a repetition start outside its class, which is
    why the repetition takes all it can and never has to give back. *)
Lemma ID_ATTR_head rest :
  match ID_ATTR ++ rest with [] => True | c :: _ => is_space c = false end.
Proof. reflexivity. Qed.

Lemma TYPE_ATTR_head rest :
  match TYPE_ATTR ++ rest with [] => True | c :: _ => is_space c = false end.
Proof. reflexivity. Qed.

Lemma SCRIPT_CLOSE_head rest :
  match SCRIPT_CLOSE ++ rest with [] => True | c :: _ => not_lt c = false end.
Proof. reflexivity. Qed.

Lemma match_at_complete s content post :
  tag_at s [] content post -> match_at s = Some content.
Proof.
  intros (ws1 & ws2 & Hn1 & Hw1 & Hn2 & Hw2 & Hnc & Hc & ->).
  unfold match_at. rewrite app_nil_l, strip_prefix_app.
  rewrite (one_or_more_run _ ws1) by (try assumption; apply ID_ATTR_head).
  rewrite strip_prefix_app.
  rewrite (one_or_more_run _ ws2) by (try assumption; apply TYPE_ATTR_head).
  rewrite strip_prefix_app.
  rewrite (one_or_more_run _ content) by (try assumption; apply SCRIPT_CLOSE_head).
  now rewrite strip_prefix_app.
Qed.

Lemma match_at_sound s content :
  match_at s = Some content -> exists post, tag_at s [] content post.
Proof.
  unfold match_at. intros E.
  destruct (strip_prefix SCRIPT_OPEN s) as [s1|] eqn:E1; [|discriminate].
  destruct (one_or_more is_space s1) as [[ws1 s2]|] eqn:E2; [|discriminate].
  destruct (strip_prefix ID_ATTR s2) as [s3|] eqn:E3; [|discriminate].
  destruct (one_or_more is_space s3) as [[ws2 s4]|] eqn:E4; [|discriminate].
  destruct (strip_prefix TYPE_ATTR s4) as [s5|] eqn:E5; [|discriminate].
  destruct (one_or_more not_lt s5) as [[c s6]|] eqn:E6; [|discriminate].
  destruct (strip_prefix SCRIPT_CLOSE s6) as [post|] eqn:E7; [|discriminate].
  injection E as <-.
  apply strip_prefix_Some in E1, E3, E5, E7.
  apply one_or_more_Some in E2 as [Hn1 H1], E4 as [Hn2 H2], E6 as [Hnc H3].
  apply span_app in H1 as (-> & Hw1 & _), H2 as (-> & Hw2 & _), H3 as (-> & Hc & _).
  subst. exists post, ws1, ws2. repeat split; assumption.
Qed.

Lemma tag_at_cons x html pre content post :
  tag_at html pre content post -> tag_at (x :: html) (x :: pre) content post.
Proof.
  intros (ws1 & ws2 & ? & ? & ? & ? & ? & ? & ->).
  exists ws1, ws2. repeat split; assumption.
Qed.

Lemma tag_at_uncons x html pre content post :
  tag_at (x :: html) (x :: pre) content post -> tag_at html pre content post.
Proof.
  intros (ws1 & ws2 & ? & ? & ? & ? & ? & ? & E).
  exists ws1, ws2. repeat split; try assumption. now injection E.
Qed.

Lemma tag_at_head x y html pre content post :
  tag_at (x :: html) (y :: pre) content post -> x = y.
Proof. intros (ws1 & ws2 & ? & ? & ? & ? & ? & ? & E). now injection E. Qed.

(** The search returns the content of the leftmost tag, and finds one
    whenever there is one. *)
Lemma NEXT_DATA_match_Some html content :
  NEXT_DATA_match html = Some content -> first_tag html content.
Proof.
  induction html as [|x html IH]; cbn [NEXT_DATA_match].
  - destruct (match_at []) eqn:E; [|discriminate]. intros [= ->].
    apply match_at_sound in E as [post Hpost].
    exists [], post. split; [assumption|]. intros; simpl; lia.
  - destruct (match_at (x :: html)) as [c|] eqn:E.
    + intros [= ->]. apply match_at_sound in E as [post Hpost].
      exists [], post. split; [assumption|]. intros; simpl; lia.
    + intros Hrest. destruct (IH Hrest) as (pre & post & Htag & Hleft).
      exists (x :: pre), post. split; [now apply tag_at_cons|].
      intros [|y pre'] c' post' Htag'.
      * apply match_at_complete in Htag'. congruence.
      * pose proof (tag_at_head _ _ _ _ _ _ Htag') as <-.
        apply tag_at_uncons, Hleft in Htag'. simpl; lia.
Qed.

Lemma NEXT_DATA_match_None html : NEXT_DATA_match html = None -> no_tag html.
Proof.
  induction html as [|x html IH]; cbn [NEXT_DATA_match].
  - destruct (match_at []) eqn:E; [discriminate|]. intros _ pre c post Htag.
    destruct pre as [|y pre].
    + apply match_at_complete in Htag. congruence.
    + destruct Htag as (? & ? & _ & _ & _ & _ & _ & _ & Habs). discriminate Habs.
  - destruct (match_at (x :: html)) as [c|] eqn:E; [discriminate|].
    intros Hrest [|y pre] c post Htag.
    + apply match_at_complete in Htag. congruence.
    + pose proof (tag_at_head _ _ _ _ _ _ Htag) as <-.
      apply tag_at_uncons in Htag. exact (IH Hrest _ _ _ Htag).
Qed.

Lemma tag_at_same_start html pre c post pre' c' post' :
  tag_at html pre c post -> tag_at html pre' c' post' ->
  length pre = length pre' -> c = c'.
Proof.
  revert html pre'; induction pre as [|x pre IH]; intros html [|y pre'] H1 H2 Hlen;
    try discriminate Hlen.
  - apply match_at_complete in H1, H2. congruence.
  - destruct html as [|z html].
    + destruct H1 as (? & ? & _ & _ & _ & _ & _ & _ & Habs). discriminate Habs.
    + pose proof (tag_at_head _ _ _ _ _ _ H1) as <-.
      pose proof (tag_at_head _ _ _ _ _ _ H2) as <-.
      apply tag_at_uncons in H1, H2. injection Hlen as Hlen. exact (IH _ _ H1 H2 Hlen).
Qed.

Lemma first_tag_match html content :
  first_tag html content <-> NEXT_DATA_match html = Some content.
Proof.
  split; [|apply NEXT_DATA_match_Some].
  intros (pre & post & Htag & Hleft).
  destruct (NEXT_DATA_match html) as [c|] eqn:E.
  - apply NEXT_DATA_match_Some in E as (pre' & post' & Htag' & Hleft').
    f_equal. apply (tag_at_same_start html pre' c post' pre content post); try assumption.
    apply Hleft in Htag'. apply Hleft' in Htag. lia.
  - apply NEXT_DATA_match_None in E. now destruct (E _ _ _ Htag).
Qed.

Lemma no_tag_match html : no_tag html <-> NEXT_DATA_match html = None.
Proof.
  split; [|apply NEXT_DATA_match_None].
  intros Hno. destruct (NEXT_DATA_match html) as [c|] eqn:E; [|reflexivity].
  apply NEXT_DATA_match_Some in E as (pre & post & Htag & _). now destruct (Hno _ _ _ Htag).
Qed.

Lemma first_tag_nonempty html content : first_tag html content -> content <> [].
Proof. intros (pre & post & (ws1 & ws2 & _ & _ & _ & _ & Hc & _) & _). exact Hc. Qed.

(** ** Hash resolution *)

Section HashResolution.
Context {Num : Type} `{JsNumber Num}.

Lemma JSON_parse_throws (text : jsstring) e :
  JSON_parse text = Throw e -> e = SyntaxError.
Proof.
  unfold JSON_parse. destruct (lex_from LStart text) as [toks|]; [|congruence].
  destruct (parse_from [] MValue toks); congruence.
Qed.

Lemma hash_of_page_no_tag html : no_tag html -> hash_of_page html = Throw NOT_FOUND.
Proof. intros Hno. unfold hash_of_page. now rewrite (proj1 (no_tag_match html) Hno). Qed.

Lemma hash_of_page_first_tag html content :
  first_tag html content ->
  hash_of_page html
  = (do nextData <- JSON_parse content;
     if truthy (item_id nextData) then Ok (item_id nextData) else Throw NOT_EXTRACTED).
Proof.
  intros Htag. pose proof (first_tag_nonempty _ _ Htag) as Hne.
  unfold hash_of_page. rewrite (proj1 (first_tag_match html content) Htag).
  destruct content; [congruence | reflexivity].
Qed.

(** C1, amended.  On a fetched page [getItemHash] ends in one of four ways,
    and the page decides which.  Without the script tag it fails with its
    own not-found error.  With the tag, if the content of the first one is
    not valid JSON, it fails with the SyntaxError of [JSON.parse]; if the
    content parses and the identifier at props.pageProps.item.id is absent
    or falsy, it fails with its own not-extracted error; if the identifier
    is truthy it returns it, and so returns exactly that string when the
    identifier is a string that is not empty. *)
Theorem getItemHash_outcomes (web : Web) (urlOrSlug html : jsstring) :
  web (fullUrl urlOrSlug) = Ok html ->
  let out := outcome (getItemHash web urlOrSlug) in
  (no_tag html \/ exists content, first_tag html content)
  /\ (no_tag html -> out = Throw NOT_FOUND)
  /\ (forall content, first_tag html content ->
        match JSON_parse content with
        | Throw e => e = SyntaxError /\ out = Throw SyntaxError
        | Ok nextData =>
            (truthy (item_id nextData) = false -> out = Throw NOT_EXTRACTED)
            /\ (truthy (item_id nextData) = true -> out = Ok (item_id nextData))
            /\ (forall c s, item_id nextData = VString (c :: s) ->
                  out = Ok (VString (c :: s)))
        end).
Proof.
  intros Hweb out. subst out. unfold getItemHash. cbn [outcome].
  rewrite Hweb. cbn [bind]. split; [|split].
  - destruct (NEXT_DATA_match html) as [content|] eqn:E.
    + right. exists content. now apply first_tag_match.
    + left. now apply no_tag_match.
  - apply hash_of_page_no_tag.
  - intros content Htag. rewrite (hash_of_page_first_tag _ _ Htag).
    destruct (JSON_parse content) as [nextData|e] eqn:Hparse; cbn [bind].
    + split; [|split].
      * now intros ->.
      * now intros ->.
      * intros c s E. now rewrite E.
    + apply JSON_parse_throws in Hparse. now subst e.
Qed.

(** The failures of the client's own making are the two of the kind that
    the specification calls HashNotFoundError. *)
Lemma getItemHash_own_errors (web : Web) (urlOrSlug html : jsstring) msg :
  web (fullUrl urlOrSlug) = Ok html ->
  outcome (getItemHash web urlOrSlug) = Throw (Error msg) ->
  HashNotFoundError (Error msg).
Proof.
  intros Hweb. unfold getItemHash. cbn [outcome]. rewrite Hweb. cbn [bind].
  unfold hash_of_page. destruct (NEXT_DATA_match html) as [[|c r]|].
  - intros E. inversion E. now left.
  - destruct (JSON_parse (c :: r)) as [nextData|e] eqn:Hparse; cbn [bind].
    + destruct (truthy (item_id nextData)); [discriminate|].
      intros E. inversion E. now right.
    + apply JSON_parse_throws in Hparse. subst e. discriminate.
  - intros E. inversion E. now left.
Qed.

Lemma getItemHash_http_prefix (web : Web) (urlOrSlug : jsstring) :
  requested (getItemHash (Num := Num) web urlOrSlug)
  = [if startsWith urlOrSlug (lit "http") then urlOrSlug
     else lit "https://es.wallapop.com/item/" ++ urlOrSlug].
Proof. reflexivity. Qed.

(** C7, amended.  [getItemHash] makes one request.  When the input starts
    with [http://] or [https://] the request is for the input itself, as it
    stands; when the input does not start with the four characters [http]
    the request is for the item URL made of the input taken as a slug. *)
Theorem getItemHash_requested (web : Web) (urlOrSlug : jsstring) :
  let asked := requested (getItemHash (Num := Num) web urlOrSlug) in
  (forall rest, urlOrSlug = lit "http://" ++ rest \/ urlOrSlug = lit "https://" ++ rest ->
     asked = [urlOrSlug])
  /\ ((forall rest, urlOrSlug <> lit "http" ++ rest) ->
      asked = [lit "https://es.wallapop.com/item/" ++ urlOrSlug]).
Proof.
  cbn zeta. rewrite getItemHash_http_prefix. split.
  - intros rest Hu.
    assert (startsWith urlOrSlug (lit "http") = true) as ->; [|reflexivity].
    apply startsWith_prefix.
    destruct Hu as [-> | ->]; [now exists (lit "://" ++ rest) | now exists (lit "s://" ++ rest)].
  - intros Hno. destruct (startsWith urlOrSlug (lit "http")) eqn:E; [|reflexivity].
    apply startsWith_prefix in E as [rest ->]. now destruct (Hno rest).
Qed.

End HashResolution.

(** * Examples *)

Section Examples.
Import Decimals Samples.

(** ** Hash resolution *)

(** C1, as stated, fails: a page whose script tag holds [{] makes
    [getItemHash] fail with the SyntaxError of [JSON.parse], which is not a
    HashNotFoundError. *)
Lemma getItemHash_invalid_json :
  first_tag (page_with (lit "{")) (lit "{")
  /\ JSON_parse (Num := Dec) (lit "{") = Throw SyntaxError
  /\ outcome (getItemHash (Num := Dec) (web_with MESA_URL (page_with (lit "{")))
                          (lit "mesa-101"))
     = Throw SyntaxError
  /\ ~ HashNotFoundError SyntaxError.
Proof.
  split; [now apply first_tag_match|]. split; [reflexivity|]. split; [reflexivity|].
  intros [E|E]; discriminate E.
Qed.

Lemma getItemHash_outcomes_witness :
  web_with MESA_URL (page_with next_data) (fullUrl (lit "mesa-101"))
  = Ok (page_with next_data)
  /\ outcome (getItemHash (Num := Dec) (web_with MESA_URL (page_with next_data))
                          (lit "mesa-101"))
     = Ok (VString (lit "qzmmv570nlzv")).
Proof.
  split; [reflexivity|].
  destruct (getItemHash_outcomes (Num := Dec) (web_with MESA_URL (page_with next_data))
              (lit "mesa-101") (page_with next_data) eq_refl) as (_ & _ & Hcontent).
  specialize (Hcontent next_data
                (proj2 (first_tag_match (page_with next_data) next_data) eq_refl)).
  assert (JSON_parse (Num := Dec) next_data
          = Ok (object [("props", object [("pageProps", object [("item",
                  object [("id", str "qzmmv570nlzv")])])])])) as Eparse by reflexivity.
  rewrite Eparse in Hcontent. destruct Hcontent as (_ & _ & Hstring).
  exact (Hstring _ _ eq_refl).
Defined.

(** C7, as stated, fails both ways: an ftp URL starts with a URL scheme and
    is not fetched as it stands, and a slug that happens to start with
    [http] has no scheme and is. *)
Lemma getItemHash_scheme_mismatch :
  (starts_with_url_scheme (lit "ftp://files.example/mesa-101") = true
   /\ requested (getItemHash (Num := Dec) (web_with MESA_URL []) (lit "ftp://files.example/mesa-101"))
      = [lit "https://es.wallapop.com/item/ftp://files.example/mesa-101"])
  /\ (starts_with_url_scheme (lit "http-cable-101") = false
      /\ requested (getItemHash (Num := Dec) (web_with MESA_URL []) (lit "http-cable-101"))
         = [lit "http-cable-101"]).
Proof. repeat split. Qed.

Lemma getItemHash_requested_witness :
  requested (getItemHash (Num := Dec) (web_with MESA_URL []) MESA_URL) = [MESA_URL]
  /\ requested (getItemHash (Num := Dec) (web_with MESA_URL []) (lit "mesa-101")) = [MESA_URL].
Proof.
  split.
  - apply (proj1 (getItemHash_requested (Num := Dec) (web_with MESA_URL []) MESA_URL)
             (lit "es.wallapop.com/item/mesa-101")).
    right. reflexivity.
  - apply (proj2 (getItemHash_requested (Num := Dec) (web_with MESA_URL []) (lit "mesa-101"))).
    intros rest E. discriminate E.
Defined.

(** ** The upstream query *)

(** C3, as stated, fails: with the cursor [abc] and nothing else, the page
    size still goes upstream next to the cursor. *)
Lemma cursor_goes_with_limit :
  nextPage cursor_abc = Some (lit "abc")
  /\ search_query cursor_abc !! "limit" = Some (QNum (num_of_N 20))
  /\ ~ cursor_alone (lit "abc") (search_query cursor_abc).
Proof.
  split; [reflexivity|]. split; [reflexivity|].
  intros [_ Hnone].
  assert (search_query cursor_abc !! "limit" = None) as Hlimit.
  { apply (proj1 (List.Forall_forall _ _) Hnone). unfold FILTER_FIELDS. simpl. tauto. }
  discriminate Hlimit.
Qed.

Lemma search_query_cursor_witness :
  nextPage cursor_abc = Some (lit "abc")
  /\ dom (search_query cursor_abc) = ({["step"; "source"; "limit"; "next_page"]} : gset string)
  /\ Forall (fun k => search_query cursor_abc !! k = None) CURSOR_EXCLUDES.
Proof.
  split; [reflexivity|].
  apply (search_query_cursor cursor_abc 97 (lit "bc") eq_refl).
Defined.

(** ** The normalizers *)

(** C4, as stated, fails: [typeof null] is ['object'], so a null title is
    read for its [original] and the normalizer throws. *)
Lemma simplifyItemDetails_null_title :
  simplifyItemDetails null_title = Throw TypeError
  /\ Js.simplifyItemDetails null_title = Throw TypeError.
Proof. split; reflexivity. Qed.

Lemma simplifyItemDetails_defaults_witness :
  exists d, simplifyItemDetails (VObject [] : Value Dec) = Ok d
    /\ it_url d = ITEM_URL ++ lit "undefined"
    /\ it_price d = zero /\ it_counters d = VNull /\ it_images d = zero.
Proof.
  destruct (simplifyItemDetails_defaults (Num := Dec) [] (lit "undefined"))
    as (d & Hd & Hurl & Hprice & Hcounters & Himages).
  - discriminate.
  - discriminate.
  - reflexivity.
  - exists d. repeat split; auto.
Defined.

(** C5, as stated, fails: a currency that is there and is the empty string
    is not kept; the default takes its place. *)
Lemma search_result_empty_currency :
  raw_items (response [item_empty_currency]) = VArray [item_empty_currency]
  /\ raw_currency item_empty_currency = VString []
  /\ exists r, search_result (response [item_empty_currency]) = Ok r
               /\ List.map si_currency (sr_items r) = [str "EUR"].
Proof.
  split; [reflexivity|]. split; [reflexivity|].
  eexists. split; reflexivity.
Qed.

Lemma search_result_currency_witness :
  exists r, search_result (response [item_empty_currency; item_free]) = Ok r
    /\ length (sr_items r) = 2%nat
    /\ List.map si_currency (sr_items r) = [str "EUR"; str "USD"].
Proof.
  destruct (search_result_currency (Num := Dec)
              (response [item_empty_currency; item_free])
              [item_empty_currency; item_free] eq_refl)
    as (r & Hr & Hlen & Hcur).
  - repeat constructor; eexists; reflexivity.
  - exists r. split; [exact Hr|]. split; [exact Hlen|].
    destruct (sr_items r) as [|a [|b [|c l]]]; try discriminate Hlen.
    inversion Hcur as [|? ? ? ? (_ & Ha & _) Hcur']; subst.
    inversion Hcur' as [|? ? ? ? (_ & _ & Hb) _]; subst.
    simpl. now rewrite (Ha eq_refl), (Hb eq_refl).
Defined.

(** ** The composite route *)

Lemma search_and_contact_available_witness :
  search_and_contact (upstream_returning (response [item_reserved; item_free])) contact_body
  = Status200 contact_answer
  /\ Forall (fun ci => si_reserved (ci_item ci) = VBool false) (cr_items contact_answer).
Proof.
  assert (search_and_contact (upstream_returning (response [item_reserved; item_free]))
                             contact_body
          = Status200 contact_answer) as Hrun by reflexivity.
  split; [exact Hrun|].
  destruct (search_and_contact_available (Num := Dec)
              (upstream_returning (response [item_reserved; item_free]))
              contact_body contact_answer Hrun)
    as (query & msg & results & _ & _ & _ & _ & Hall).
  eapply List.Forall_impl; [|exact Hall]. now intros ci [Hres _].
Defined.

Lemma totals_count_returned_witness :
  exists r, search_result (response [item_reserved; item_free]) = Ok r
    /\ sr_total r = VNumber (num_of_nat (length (sr_items r)))
    /\ exists out, contact_result (lit "Hola!") r = Ok out
         /\ cr_total out = VNumber (num_of_nat (length (cr_items out)))
         /\ cr_total out = num 1.
Proof.
  destruct (search_result (response [item_reserved; item_free])) as [r|] eqn:Hrun;
    [|discriminate Hrun].
  exists r. split; [reflexivity|].
  destruct (totals_count_returned (Num := Dec) (response [item_reserved; item_free]) r Hrun)
    as [Htotal Hcontact].
  split; [exact Htotal|].
  assert (contact_result (lit "Hola!") r = Ok contact_answer) as Hanswer.
  { vm_compute in Hrun. injection Hrun as <-. reflexivity. }
  exists contact_answer.
  destruct (Hcontact (lit "Hola!") contact_answer Hanswer) as [Hcount _].
  split; [exact Hanswer|]. split; [exact Hcount | reflexivity].
Defined.

Lemma composite_limit_capped_witness :
  given (b_query contact_body) = Some (lit "mesa")
  /\ given (b_message contact_body) = Some (lit "Hola!")
  /\ search_query (contact_params contact_body (lit "mesa")) !! "limit"
     = Some (QNum (num_of_N 20))
  /\ search_and_contact (fun _ _ => Throw (Error (lit "Wallapop API 403: Forbidden")))
                        contact_body
     = Failed (Error (lit "Wallapop API 403: Forbidden"))
  /\ ServerJs.search_and_contact
       (fun _ _ => Throw (Error (lit "Wallapop API 403: Forbidden"))) contact_body
     = Failed (Error (lit "Wallapop API 403: Forbidden"))
  /\ search_and_contact (upstream_returning (response [item_reserved; item_free]))
                        contact_body
     = Status200 contact_answer.
Proof.
  split; [reflexivity|]. split; [reflexivity|].
  destruct (composite_limit_capped (Num := Dec) contact_body (lit "mesa") (lit "Hola!")
              eq_refl eq_refl)
    as (_ & _ & Hlimit & _ & _ & _ & Hfail & _ & Hok & Hfail_js & _).
  split; [exact Hlimit|].
  split; [exact (Hfail (fun _ _ => Throw (Error (lit "Wallapop API 403: Forbidden"))) _
                   eq_refl)|].
  split; [exact (Hfail_js (fun _ _ => Throw (Error (lit "Wallapop API 403: Forbidden"))) _
                   eq_refl)|].
  rewrite (Hok (upstream_returning (response [item_reserved; item_free]))
               (response [item_reserved; item_free]) eq_refl).
  reflexivity.
Defined.

(** The route caps a limit of 50 at 20 and takes 5 when there is none. *)
Example composite_limit_of_50 :
  search_query (contact_params contact_body (lit "mesa")) !! "limit"
  = Some (QNum (num_of_N 20)).
Proof. reflexivity. Qed.

End Examples.

(** * Further properties *)

(** ** String conversion and the normalizers *)

Section MoreNormalizers.
Context {Num : Type} `{JsNumber Num}.

(** Induction on values that reaches into arrays. *)
Lemma Value_array_ind (P : Value Num -> Prop) :
  P VUndefined -> P VNull -> (forall b, P (VBool b)) -> (forall n, P (VNumber n)) ->
  (forall s, P (VString s)) ->
  (forall l, Forall P l -> P (VArray l)) ->
  (forall ps, P (VObject ps)) ->
  forall v, P v.
Proof.
  intros Hu Hn Hb Hnum Hs Ha Ho.
  fix IH 1. intros [| |b|n|s|l|ps].
  - exact Hu.
  - exact Hn.
  - apply Hb.
  - apply Hnum.
  - apply Hs.
  - apply Ha. induction l as [|x l IHl]; constructor; [apply IH | exact IHl].
  - apply Ho.
Qed.

Lemma ToString_array_cons (x : Value Num) rest :
  ToString (VArray (x :: rest))
  = (do a <- (if nullish x then Ok [] else ToString x);
     match rest with
     | [] => Ok a
     | _ :: _ => do b <- ToString (VArray rest); Ok (a ++ lit "," ++ b)
     end).
Proof. reflexivity. Qed.

(** A conversion to string fails with a TypeError or not at all. *)
Lemma ToString_TypeError (v : Value Num) e : ToString v = Throw e -> e = TypeError.
Proof.
  revert e. induction v as [| |b|n|s|l IHl|ps] using Value_array_ind; intros e;
    try discriminate.
  - destruct b; discriminate.
  - induction IHl as [|x l Hx _ IH].
    + discriminate.
    + rewrite ToString_array_cons.
      destruct (nullish x); cbn [bind].
      * destruct l; [discriminate|].
        destruct (ToString (VArray (v :: l))) eqn:E; cbn [bind]; [discriminate|].
        intros [= <-]. now apply IH.
      * destruct (ToString x) eqn:Ex; cbn [bind]; [|intros [= <-]; now apply Hx].
        destruct l; [discriminate|].
        destruct (ToString (VArray (v :: l))) eqn:E; cbn [bind]; [discriminate|].
        intros [= <-]. now apply IH.
  - simpl. destruct (lookup_prop _ ps); [intros [= <-]; reflexivity | discriminate].
Qed.

(** What is not an array or an object always has a string form. *)
Lemma ToString_primitive (v : Value Num) :
  typeof_object v = false \/ v = VNull -> exists s, ToString v = Ok s.
Proof.
  intros [Hv | ->]; [|eexists; reflexivity].
  destruct v as [| |[|]| | | |]; try discriminate Hv; eexists; reflexivity.
Qed.

Lemma null_or_not (v : Value Num) : v = VNull \/ v <> VNull.
Proof. destruct v; (now left) || (right; discriminate). Qed.

Lemma unwrap_original_value (x : Value Num) :
  x <> VNull ->
  unwrap_original x = Ok (if typeof_object x then member x (lit "original") else x).
Proof.
  intros Hx. unfold unwrap_original. destruct x; try reflexivity. congruence.
Qed.

Lemma item_url_TypeError (slug : Value Num) e : item_url slug = Throw e -> e = TypeError.
Proof.
  unfold item_url. destruct (ToString slug) eqn:E; cbn [bind]; [discriminate|].
  intros [= <-]. eapply ToString_TypeError, E.
Qed.

Lemma simplifySearchItem_fine (item : Value Num) it :
  simplifySearchItem item = Ok it ->
  nullish item = false /\ exists slug, ToString (member item (lit "web_slug")) = Ok slug.
Proof.
  intros E. unfold simplifySearchItem in E.
  destruct (nullish item) eqn:Hn.
  - rewrite get_throws in E by assumption. discriminate.
  - split; [reflexivity|]. rewrite !(get_defined item) in E by assumption.
    cbn [bind] in E. unfold item_url in E.
    destruct (ToString (member item (lit "web_slug"))) as [slug|]; [eauto | discriminate].
Qed.

Lemma simplifySearchItem_TypeError (item : Value Num) e :
  simplifySearchItem item = Throw e -> e = TypeError.
Proof.
  intros E. unfold simplifySearchItem in E.
  destruct (nullish item) eqn:Hn.
  - rewrite get_throws in E by assumption. now injection E.
  - rewrite !(get_defined item) in E by assumption. cbn [bind] in E.
    destruct (item_url _) eqn:Hu; cbn [bind] in E; [discriminate|].
    injection E as <-. eapply item_url_TypeError, Hu.
Qed.

(** X1.  The search normalizer returns an item exactly when the raw item
    is not null or undefined and its slug has a string form; when it fails,
    it fails with a TypeError. *)
Theorem simplifySearchItem_domain (item : Value Num) :
  ((exists it, simplifySearchItem item = Ok it)
   <-> nullish item = false
       /\ exists slug, ToString (member item (lit "web_slug")) = Ok slug)
  /\ (forall e, simplifySearchItem item = Throw e -> e = TypeError).
Proof.
  split; [split|].
  - intros [it E]. eapply simplifySearchItem_fine, E.
  - intros [Hn [slug Hs]].
    destruct (simplifySearchItem_defined item slug Hn Hs) as (it & E & _). eauto.
  - apply simplifySearchItem_TypeError.
Qed.

Lemma simplifySearchItem_value (item : Value Num) slug :
  nullish item = false ->
  ToString (member item (lit "web_slug")) = Ok slug ->
  let price := member item (lit "price") in
  simplifySearchItem item
  = Ok {| si_id := member item (lit "id");
          si_title := member item (lit "title");
          si_price := opt price (lit "amount");
          si_currency := or_else (opt price (lit "currency")) EUR;
          si_city := opt (member item (lit "location")) (lit "city");
          si_distance := member item (lit "distance");
          si_slug := member item (lit "web_slug");
          si_url := ITEM_URL ++ slug;
          si_image := opt (opt (opt_first (member item (lit "images"))) (lit "urls"))
                          (lit "medium");
          si_sellerId := member item (lit "user_id");
          si_reserved := or_else (opt (member item (lit "reserved")) (lit "flag"))
                                 (VBool false);
          si_shippable := or_else (opt (member item (lit "shipping"))
                                       (lit "user_allows_shipping")) (VBool false);
          si_createdAt := member item (lit "created_at") |}.
Proof.
  intros Hn Hs. cbn zeta. unfold simplifySearchItem, item_url.
  rewrite !(get_defined item) by assumption. cbn [bind]. rewrite Hs. reflexivity.
Qed.

Lemma or_else_keeps_truthy (a b : Value Num) : truthy b = true -> truthy (or_else a b) = true.
Proof. intros Hb. unfold or_else. now destruct (truthy a) eqn:E. Qed.

Lemma or_false_cases (a : Value Num) :
  or_else a (VBool false) = VBool false \/ truthy (or_else a (VBool false)) = true.
Proof. unfold or_else. destruct (truthy a) eqn:E; [now right | now left]. Qed.

Lemma or_null_cases (a : Value Num) :
  or_else a VNull = VNull \/ truthy (or_else a VNull) = true.
Proof. unfold or_else. destruct (truthy a) eqn:E; [now right | now left]. Qed.

Lemma coalesce_defined (a b : Value Num) : nullish b = false -> nullish (coalesce a b) = false.
Proof. intros Hb. unfold coalesce. now destruct (nullish a) eqn:E. Qed.

(** X3.  Every item that the search normalizer returns has a truthy
    currency (the default when the upstream gave none), flags that are
    either [false] or truthy, never null or undefined, and a url that is the
    item base followed by the string form of its own slug, whatever URL the
    upstream may have supplied. *)
Theorem simplifySearchItem_invariants (item : Value Num) (it : SearchItem Num) :
  simplifySearchItem item = Ok it ->
  truthy (si_currency it) = true
  /\ (si_reserved it = VBool false \/ truthy (si_reserved it) = true)
  /\ (si_shippable it = VBool false \/ truthy (si_shippable it) = true)
  /\ exists slug, ToString (si_slug it) = Ok slug /\ si_url it = ITEM_URL ++ slug.
Proof.
  intros E.
  destruct (simplifySearchItem_fine item it E) as [Hn [slug Hs]].
  rewrite (simplifySearchItem_value item slug Hn Hs) in E. injection E as <-.
  cbn [si_currency si_reserved si_shippable si_slug si_url].
  split; [now apply or_else_keeps_truthy|].
  split; [apply or_false_cases|]. split; [apply or_false_cases|]. eauto.
Qed.

(** The details the TypeScript normalizer returns, field by field. *)
Lemma simplifyItemDetails_value (raw : Value Num) slug :
  nullish raw = false ->
  member raw (lit "title") <> VNull ->
  member raw (lit "description") <> VNull ->
  ToString (member raw (lit "web_slug")) = Ok slug ->
  let title0 := member raw (lit "title") in
  let desc0 := member raw (lit "description") in
  let price0 := member raw (lit "price") in
  simplifyItemDetails raw
  = Ok {| it_id := member raw (lit "id");
          it_title := if typeof_object title0 then member title0 (lit "original") else title0;
          it_description := if typeof_object desc0 then member desc0 (lit "original") else desc0;
          it_price := coalesce (coalesce (opt (opt price0 (lit "cash")) (lit "amount"))
                                         (opt price0 (lit "amount"))) zero;
          it_currency := or_else (or_else (opt (opt price0 (lit "cash")) (lit "currency"))
                                          (opt price0 (lit "currency"))) EUR;
          it_city := opt (member raw (lit "location")) (lit "city");
          it_seller := {| seller_id := opt (member raw (lit "user")) (lit "id");
                          seller_name := opt (member raw (lit "user")) (lit "micro_name") |};
          it_slug := member raw (lit "web_slug");
          it_url := ITEM_URL ++ slug;
          it_images := member (or_else (member raw (lit "images")) (VArray [])) (lit "length");
          it_reserved := or_else (opt (member raw (lit "reserved")) (lit "flag")) (VBool false);
          it_sold := or_else (opt (member raw (lit "sold")) (lit "flag")) (VBool false);
          it_counters := or_else (member raw (lit "counters")) VNull;
          it_createdAt := member raw (lit "creation_date") |}.
Proof.
  intros Hn Ht Hd Hs. cbn zeta. unfold simplifyItemDetails, item_url.
  rewrite !(get_defined raw) by assumption. cbn [bind].
  rewrite (unwrap_original_value _ Ht), (unwrap_original_value _ Hd), Hs. cbn [bind].
  rewrite get_defined by apply or_else_defined. reflexivity.
Qed.

Lemma simplifyItemDetails_js_value (raw : Value Num) slug :
  nullish raw = false ->
  member raw (lit "title") <> VNull ->
  member raw (lit "description") <> VNull ->
  ToString (member raw (lit "web_slug")) = Ok slug ->
  exists d, Js.simplifyItemDetails raw = Ok d
    /\ it_price d = coalesce (opt (opt (member raw (lit "price")) (lit "cash")) (lit "amount"))
                             (opt (member raw (lit "price")) (lit "amount")).
Proof.
  intros Hn Ht Hd Hs. unfold Js.simplifyItemDetails, item_url.
  rewrite !(get_defined raw) by assumption. cbn [bind].
  rewrite (unwrap_original_value _ Ht), (unwrap_original_value _ Hd), Hs. cbn [bind].
  rewrite get_defined by apply or_else_defined. cbn [bind].
  eexists. split; reflexivity.
Qed.

(** Where either details normalizer stops short of an answer. *)
Lemma simplifyItemDetails_stops (raw : Value Num) :
  (nullish raw = true
   \/ member raw (lit "title") = VNull
   \/ member raw (lit "description") = VNull
   \/ exists e, ToString (member raw (lit "web_slug")) = Throw e) ->
  simplifyItemDetails raw = Throw TypeError
  /\ Js.simplifyItemDetails raw = Throw TypeError.
Proof.
  intros Hstop. unfold simplifyItemDetails, Js.simplifyItemDetails.
  destruct (nullish raw) eqn:Hn.
  { rewrite !get_throws by assumption. split; reflexivity. }
  rewrite !(get_defined raw) by assumption. cbn [bind].
  destruct Hstop as [Habs | [Ht | Hstop]]; [discriminate | |].
  { rewrite Ht. split; reflexivity. }
  destruct (unwrap_original (member raw (lit "title"))) as [title|e] eqn:Etitle; cbn [bind].
  2: { unfold unwrap_original in Etitle.
       destruct (member raw (lit "title")); try discriminate Etitle.
       injection Etitle as <-. split; reflexivity. }
  destruct Hstop as [Hd | [e Hs]].
  { rewrite Hd. split; reflexivity. }
  destruct (unwrap_original (member raw (lit "description"))) as [desc|e'] eqn:Edesc; cbn [bind].
  2: { unfold unwrap_original in Edesc.
       destruct (member raw (lit "description")); try discriminate Edesc.
       injection Edesc as <-. split; reflexivity. }
  unfold item_url. rewrite Hs. cbn [bind].
  rewrite (ToString_TypeError _ _ Hs). split; reflexivity.
Qed.

(** X2.  Both details normalizers return an answer exactly when the raw
    value is not null or undefined, its title and description are not null
    and its slug has a string form; on every other input both fail with a
    TypeError. *)
Theorem simplifyItemDetails_domain (raw : Value Num) :
  let fine :=
    nullish raw = false
    /\ member raw (lit "title") <> VNull
    /\ member raw (lit "description") <> VNull
    /\ exists slug, ToString (member raw (lit "web_slug")) = Ok slug in
  (fine -> (exists d, simplifyItemDetails raw = Ok d)
           /\ (exists d, Js.simplifyItemDetails raw = Ok d))
  /\ (~ fine -> simplifyItemDetails raw = Throw TypeError
                /\ Js.simplifyItemDetails raw = Throw TypeError).
Proof.
  cbn zeta. split.
  - intros (Hn & Ht & Hd & slug & Hs). split.
    + eexists. apply (simplifyItemDetails_value raw slug); assumption.
    + destruct (simplifyItemDetails_js_value raw slug) as (d & E & _); eauto.
  - intros Hnot. apply simplifyItemDetails_stops.
    destruct (nullish raw) eqn:Hn; [now left | right].
    destruct (null_or_not (member raw (lit "title"))) as [|Ht]; [now left | right].
    destruct (null_or_not (member raw (lit "description"))) as [|Hd]; [now left | right].
    destruct (ToString (member raw (lit "web_slug"))) as [slug|e] eqn:Hs; [|eauto].
    destruct Hnot. repeat split; eauto.
Qed.

Lemma details_fine_or_stops (raw : Value Num) :
  (nullish raw = false
   /\ member raw (lit "title") <> VNull
   /\ member raw (lit "description") <> VNull
   /\ exists slug, ToString (member raw (lit "web_slug")) = Ok slug)
  \/ (nullish raw = true
      \/ member raw (lit "title") = VNull
      \/ member raw (lit "description") = VNull
      \/ exists e, ToString (member raw (lit "web_slug")) = Throw e).
Proof.
  destruct (nullish raw) eqn:Hn; [right; now left|].
  destruct (null_or_not (member raw (lit "title"))) as [|Ht]; [right; right; now left|].
  destruct (null_or_not (member raw (lit "description"))) as [|Hd];
    [right; right; right; now left|].
  destruct (ToString (member raw (lit "web_slug"))) as [slug|e] eqn:Hs.
  - left. repeat split; eauto.
  - right. right. right. right. eauto.
Qed.

(** X4.  Every ItemDetails that the normalizer of client.ts returns has a
    price that is not null or undefined, a truthy currency, reserved and
    sold flags that are either [false] or truthy, counters that are either
    null or truthy, and a url that is the item base followed by the string
    form of its own slug. *)
Theorem simplifyItemDetails_invariants (raw : Value Num) (d : ItemDetails Num) :
  simplifyItemDetails raw = Ok d ->
  nullish (it_price d) = false
  /\ truthy (it_currency d) = true
  /\ (it_reserved d = VBool false \/ truthy (it_reserved d) = true)
  /\ (it_sold d = VBool false \/ truthy (it_sold d) = true)
  /\ (it_counters d = VNull \/ truthy (it_counters d) = true)
  /\ exists slug, ToString (it_slug d) = Ok slug /\ it_url d = ITEM_URL ++ slug.
Proof.
  intros E. destruct (details_fine_or_stops raw) as [(Hn & Ht & Hd & slug & Hs) | Hstop].
  2: { apply simplifyItemDetails_stops in Hstop as [Hthrow _]. congruence. }
  pose proof (simplifyItemDetails_value raw slug Hn Ht Hd Hs) as Ev. cbn zeta in Ev.
  rewrite Ev in E. injection E as <-.
  cbn [it_price it_currency it_reserved it_sold it_counters it_slug it_url].
  split; [now apply coalesce_defined|].
  split; [now apply or_else_keeps_truthy|].
  split; [apply or_false_cases|]. split; [apply or_false_cases|].
  split; [apply or_null_cases|]. eauto.
Qed.

End MoreNormalizers.

(** ** Reading a query *)

Section QueryLookups.
Context {Num : Type} `{JsNumber Num}.

Lemma lookup_set_if_eq k v (q : gmap string (QueryValue Num)) :
  set_if k v q !! k = match v with Some x => Some x | None => q !! k end.
Proof. destruct v; simpl; [apply lookup_insert_eq | reflexivity]. Qed.

Lemma dom_set_if_within k v (q : gmap string (QueryValue Num)) (S : gset string) :
  k ∈ S -> dom q ⊆ S -> dom (set_if k v q) ⊆ S.
Proof.
  intros Hk Hq. destruct v; simpl; [|assumption].
  rewrite dom_insert_L. apply union_subseteq. split; [|assumption].
  now apply singleton_subseteq_l.
Qed.

Lemma dom_insert_within k x (q : gmap string (QueryValue Num)) (S : gset string) :
  k ∈ S -> dom q ⊆ S -> dom (<[k := x]> q) ⊆ S.
Proof.
  intros Hk Hq. rewrite dom_insert_L. apply union_subseteq. split; [|assumption].
  now apply singleton_subseteq_l.
Qed.

End QueryLookups.

Ltac lookup_query :=
  repeat first [ rewrite lookup_set_if_ne by done
               | rewrite lookup_insert_ne by done
               | rewrite lookup_set_if_eq
               | rewrite lookup_insert_eq
               | rewrite lookup_empty ];
  first [ reflexivity
        | match goal with |- context [fmap _ ?o] => destruct o end; reflexivity ].


(** ** Searching *)

Section MoreSearch.
Context {Num : Type} `{JsNumber Num}.

Lemma mapM_throw {A B} (f : A -> Result B) l e :
  mapM f l = Throw e -> exists a, In a l /\ f a = Throw e.
Proof.
  induction l as [|a l IH]; simpl; [discriminate|].
  destruct (f a) eqn:Ha; cbn [bind].
  - destruct (mapM f l); cbn [bind]; [discriminate|].
    intros [= <-]. destruct (IH eq_refl) as (x & Hx & Hf). eauto.
  - intros [= <-]. eauto.
Qed.

Lemma search_result_TypeError (data : Value Num) e :
  search_result data = Throw e -> e = TypeError.
Proof.
  unfold search_result. destruct (raw_items data) as [| | | | |raws|] eqn:Hitems;
    cbn [Array_map bind]; try (now intros [= <-]).
  destruct (mapM simplifySearchItem raws) eqn:Hmap; cbn [bind].
  - rewrite get_defined by reflexivity. discriminate.
  - intros [= <-]. apply mapM_throw in Hmap as (raw & _ & Hraw).
    eapply simplifySearchItem_TypeError, Hraw.
Qed.

(** X5.  A response without items, be it because a level of the payload is
    missing or because the items are null or otherwise falsy, is an empty
    result with total 0, not a failure. *)
Theorem search_result_no_items (data : Value Num) :
  truthy (opt (opt (opt (opt data (lit "data")) (lit "section")) (lit "payload"))
              (lit "items")) = false ->
  search_result data
  = Ok {| sr_items := [];
          sr_nextPage := or_else (opt (opt data (lit "meta")) (lit "next_page")) VNull;
          sr_total := zero |}.
Proof.
  intros E. unfold search_result, raw_items. now rewrite (or_else_falsy _ _ E).
Qed.

(** X6.  A search fails in two ways only: with the error of the upstream
    call, handed on as it is, or with a TypeError of the normalization.  The
    latter is what an items payload that is truthy and not an array gives. *)
Theorem search_failures (api : Upstream Num) (p : SearchParams Num) :
  (forall e, search api p = Throw e ->
     api (lit "/search") (search_query p) = Throw e \/ e = TypeError)
  /\ (forall e, api (lit "/search") (search_query p) = Throw e -> search api p = Throw e)
  /\ (forall data, api (lit "/search") (search_query p) = Ok data ->
        (forall raws, raw_items data <> VArray raws) ->
        search api p = Throw TypeError).
Proof.
  unfold search. split; [|split].
  - intros e. destruct (api _ _) as [data|e0]; cbn [bind].
    + intros E. right. eapply search_result_TypeError, E.
    + intros [= <-]. now left.
  - intros e ->. reflexivity.
  - intros data -> Hnot. cbn [bind]. unfold search_result.
    destruct (raw_items data) as [| | | | |raws|]; try reflexivity.
    now destruct (Hnot raws).
Qed.

(** X7.  The cursor of a result is null or truthy, never undefined or the
    empty string; so a cursor that a search returned, given back as
    [nextPage], always makes the next query a cursor query.  The composite
    route hands the cursor on untouched. *)
Theorem search_result_cursor (data : Value Num) (r : SearchResult Num) :
  search_result data = Ok r ->
  (sr_nextPage r = VNull \/ truthy (sr_nextPage r) = true)
  /\ (forall cursor p, sr_nextPage r = VString cursor -> nextPage p = Some cursor ->
        search_query p = cursor_query p cursor)
  /\ (forall msg out, contact_result msg r = Ok out -> cr_nextPage out = sr_nextPage r).
Proof.
  intros E.
  assert (sr_nextPage r = or_else (opt (opt data (lit "meta")) (lit "next_page")) VNull) as Hnp.
  { unfold search_result in E.
    destruct (Array_map _ _); cbn [bind] in E; [|discriminate].
    destruct (get _ _); cbn [bind] in E; [|discriminate]. now injection E as <-. }
  split; [|split].
  - rewrite Hnp. unfold or_else. destruct (truthy _) eqn:Ht; [now right | now left].
  - intros cursor p Hc Hp.
    assert (truthy (VString cursor) = true) as Ht.
    { rewrite <- Hc, Hnp. rewrite Hnp in Hc. unfold or_else in *.
      destruct (truthy _) eqn:Ht; [assumption | discriminate Hc]. }
    destruct cursor as [|c s]; [discriminate Ht|].
    apply (search_query_given_cursor p (c :: s)). now rewrite Hp.
  - intros msg out. unfold contact_result.
    destruct (mapM _ _); cbn [bind]; [|discriminate]. now intros [= <-].
Qed.

(** X8.  Without a cursor, what goes upstream is this and nothing more:
    the keywords and the sort order when they are not empty, each price
    bound, the distance and the category when given, and always a latitude
    and a longitude, those of Barcelona by default. *)
Theorem search_query_filters (p : SearchParams Num) :
  given (nextPage p) = None ->
  search_query p !! "next_page" = None
  /\ search_query p !! "keywords" = QStr <$> given (keywords p)
  /\ search_query p !! "min_sale_price" = QNum <$> minPrice p
  /\ search_query p !! "max_sale_price" = QNum <$> maxPrice p
  /\ search_query p !! "distance" = QNum <$> distance p
  /\ search_query p !! "latitude" = Some (QNum (default DEFAULT_LAT (latitude p)))
  /\ search_query p !! "longitude" = Some (QNum (default DEFAULT_LNG (longitude p)))
  /\ search_query p !! "category_id" = QNum <$> categoryId p
  /\ search_query p !! "order_by" = QStr <$> given (orderBy p)
  /\ dom (search_query p)
     ⊆ ({["step"; "source"; "limit"; "keywords"; "min_sale_price"; "max_sale_price";
          "distance"; "latitude"; "longitude"; "category_id"; "order_by"]} : gset string).
Proof.
  intros E. unfold search_query. rewrite E.
  repeat (split; [lookup_query|]).
  repeat first [apply dom_set_if_within | apply dom_insert_within];
    solve [set_solver | rewrite dom_empty_L; set_solver].
Qed.

(** X9.  The two clients build the same query from the same parameters. *)
Theorem search_query_same_in_js (p : SearchParams Num) :
  Js.search_query p = search_query p.
Proof.
  unfold Js.search_query, search_query. now destruct (given (nextPage p)).
Qed.

End MoreSearch.

(** ** The composite route, further *)

Section MoreComposite.
Context {Num : Type} `{JsNumber Num}.

(** X10.  What the composite route answers is decided in this order: 400
    for a query that is missing or empty, 400 for a message that is missing
    or empty, the error of the search when the search fails, and otherwise
    always a body with status 200. *)
Theorem search_and_contact_status (api : Upstream Num) (body : ContactBody Num) :
  match given (b_query body), given (b_message body) with
  | None, _ => search_and_contact api body = Status400 (lit "query required")
  | Some _, None => search_and_contact api body = Status400 (lit "message required")
  | Some query, Some msg =>
      match search api (contact_params body query) with
      | Throw e => search_and_contact api body = Failed e
      | Ok results => exists out, search_and_contact api body = Status200 out
      end
  end.
Proof.
  destruct (given (b_query body)) as [query|] eqn:Hq.
  2: { unfold search_and_contact. now rewrite Hq. }
  destruct (given (b_message body)) as [msg|] eqn:Hm.
  2: { unfold search_and_contact. now rewrite Hq, Hm. }
  destruct (search api (contact_params body query)) as [results|e] eqn:Hs.
  - eapply search_and_contact_answers; eassumption.
  - unfold search_and_contact. now rewrite Hq, Hm, Hs.
Qed.

(** X11.  The composite route always asks for a first page: its query
    never holds a cursor, a category or a sort order; it holds the caller's
    query as keywords, and the caller's coordinates or those of Barcelona. *)
Theorem composite_query (body : ContactBody Num) (c : N) (r : jsstring) :
  let sent := search_query (contact_params body (c :: r)) in
  sent !! "next_page" = None
  /\ sent !! "category_id" = None
  /\ sent !! "order_by" = None
  /\ sent !! "keywords" = Some (QStr (c :: r))
  /\ sent !! "min_sale_price" = QNum <$> b_minPrice body
  /\ sent !! "max_sale_price" = QNum <$> b_maxPrice body
  /\ sent !! "distance" = QNum <$> b_distance body
  /\ sent !! "latitude" = Some (QNum (default DEFAULT_LAT (b_lat body)))
  /\ sent !! "longitude" = Some (QNum (default DEFAULT_LNG (b_lng body))).
Proof.
  cbn zeta. unfold search_query. cbn [contact_params nextPage given keywords minPrice
    maxPrice distance latitude longitude categoryId orderBy].
  repeat (split; [lookup_query|]). lookup_query.
Qed.

(** X12.  The two servers part on a price bound or distance that is given
    and falsy, such as a maximum price of 0: the route of server.ts sends
    it upstream, the route of the JavaScript server leaves it out. *)
Theorem composite_falsy_bound (body : ContactBody Num) (query : jsstring) (m : Num) :
  b_maxPrice body = Some m ->
  num_truthy m = false ->
  search_query (contact_params body query) !! "max_sale_price" = Some (QNum m)
  /\ Js.search_query (Js.contact_params body query) !! "max_sale_price" = None.
Proof.
  intros Hm Hf. unfold search_query, Js.search_query.
  cbn [contact_params Js.contact_params nextPage given maxPrice].
  rewrite Hm. cbn [Js.if_truthy]. rewrite Hf. split; lookup_query.
Qed.

End MoreComposite.

(** ** Hash resolution, further *)

Section MoreHash.
Context {Num : Type} `{JsNumber Num}.

(** X13.  [getItemHash] asks for one page, once.  When the fetch fails, it
    fails with the error of the fetch; when it returns, what it returns is
    truthy: never an empty string, null or undefined. *)
Theorem getItemHash_run (web : Web) (urlOrSlug : jsstring) :
  length (requested (getItemHash (Num := Num) web urlOrSlug)) = 1%nat
  /\ (forall e, web (fullUrl urlOrSlug) = Throw e ->
        outcome (getItemHash (Num := Num) web urlOrSlug) = Throw e)
  /\ (forall v, outcome (getItemHash web urlOrSlug) = Ok v ->
        truthy v = true /\ exists html, web (fullUrl urlOrSlug) = Ok html).
Proof.
  unfold getItemHash. cbn [requested outcome]. split; [reflexivity|]. split.
  - now intros e ->.
  - intros v. destruct (web (fullUrl urlOrSlug)) as [html|]; cbn [bind]; [|discriminate].
    unfold hash_of_page. destruct (NEXT_DATA_match html) as [[|c r]|]; try discriminate.
    destruct (JSON_parse (c :: r)) as [nextData|]; cbn [bind]; [|discriminate].
    destruct (truthy (item_id nextData)) eqn:Ht; [|discriminate].
    intros [= <-]. split; [assumption | eauto].
Qed.

Lemma fullUrl_of_url (u : jsstring) : fullUrl (fullUrl u) = fullUrl u.
Proof.
  unfold fullUrl at 2 3. destruct (startsWith u (lit "http")) eqn:E.
  - unfold fullUrl. now rewrite E.
  - reflexivity.
Qed.

(** X14.  Resolving a hash from the URL that [getItemHash] would build is
    the same as resolving it from the slug: the same page is asked for and
    the same answer comes back. *)
Theorem getItemHash_of_fullUrl (web : Web) (urlOrSlug : jsstring) :
  getItemHash (Num := Num) web (fullUrl urlOrSlug) = getItemHash web urlOrSlug.
Proof. unfold getItemHash. now rewrite fullUrl_of_url. Qed.

(** X15.  The page fetched for the slug of a normalized search item is the
    page at the url of that item, as long as the slug is a string that does
    not start with [http]: the first step of the composite route's
    follow-up and the item's own url lead to the same place. *)
Theorem getItemHash_of_slug (web : Web) (raw : Value Num) (it : SearchItem Num)
    (slug : jsstring) :
  simplifySearchItem raw = Ok it ->
  si_slug it = VString slug ->
  startsWith slug (lit "http") = false ->
  requested (getItemHash (Num := Num) web slug) = [si_url it]
  /\ getItemHash (Num := Num) web (si_url it) = getItemHash web slug.
Proof.
  intros E Hslug Hhttp.
  destruct (simplifySearchItem_fine raw it E) as [Hn [s Hs]].
  destruct (simplifySearchItem_defined raw s Hn Hs) as (it' & E' & _ & Hsl & Hurl & _).
  rewrite E in E'. injection E' as <-.
  rewrite Hsl in Hslug. rewrite Hslug in Hs. injection Hs as <-.
  assert (fullUrl slug = si_url it) as Hfull
    by (unfold fullUrl; now rewrite Hhttp, Hurl).
  split.
  - unfold getItemHash. cbn [requested]. now rewrite Hfull.
  - rewrite <- Hfull. unfold getItemHash. now rewrite fullUrl_of_url.
Qed.

(** X16.  The JavaScript client resolves hashes as the TypeScript one
    does: it asks for the same page, returns the same hash when there is
    one, and fails with the same error, except that its error for an
    identifier it could not extract has another message. *)
Theorem getItemHash_same_in_js (web : Web) (urlOrSlug : jsstring) :
  requested (ClientJs.getItemHash (Num := Num) web urlOrSlug)
  = requested (getItemHash (Num := Num) web urlOrSlug)
  /\ match outcome (getItemHash (Num := Num) web urlOrSlug) with
     | Ok v => outcome (ClientJs.getItemHash web urlOrSlug) = Ok v
     | Throw (Error msg) =>
         (Error msg = NOT_FOUND
          /\ outcome (ClientJs.getItemHash (Num := Num) web urlOrSlug) = Throw NOT_FOUND)
         \/ (Error msg = NOT_EXTRACTED
             /\ outcome (ClientJs.getItemHash (Num := Num) web urlOrSlug)
                = Throw ClientJs.NOT_EXTRACTED)
         \/ web (fullUrl urlOrSlug) = Throw (Error msg)
            /\ outcome (ClientJs.getItemHash (Num := Num) web urlOrSlug) = Throw (Error msg)
     | Throw e => outcome (ClientJs.getItemHash (Num := Num) web urlOrSlug) = Throw e
     end.
Proof.
  split; [reflexivity|]. unfold getItemHash, ClientJs.getItemHash. cbn [outcome].
  destruct (web (fullUrl urlOrSlug)) as [html|e]; cbn [bind].
  2: { destruct e; auto. }
  unfold hash_of_page, ClientJs.hash_of_page.
  destruct (NEXT_DATA_match html) as [[|c r]|]; try (left; split; reflexivity).
  destruct (JSON_parse (c :: r)) as [nextData|e] eqn:Hparse; cbn [bind].
  - destruct (truthy (item_id nextData)); [reflexivity|]. right. left. split; reflexivity.
  - apply JSON_parse_throws in Hparse. now subst e.
Qed.

(** X17.  The search for the script tag returns the content of the
    leftmost tag of the page and nothing else: what it returns is never
    empty and never holds a [<], and it returns nothing only when the page
    has no such tag at all. *)
Theorem NEXT_DATA_match_leftmost (html : jsstring) :
  match NEXT_DATA_match html with
  | Some content =>
      first_tag html content
      /\ content <> []
      /\ Forall (fun c => c <> 60) content
      /\ (forall other, first_tag html other -> other = content)
  | None => no_tag html
  end.
Proof.
  destruct (NEXT_DATA_match html) as [content|] eqn:E.
  - pose proof (NEXT_DATA_match_Some _ _ E) as Htag.
    split; [assumption|]. split; [eapply first_tag_nonempty, Htag|]. split.
    + destruct Htag as (pre & post & (ws1 & ws2 & _ & _ & _ & _ & _ & Hc & _) & _).
      eapply List.Forall_impl; [|exact Hc].
      intros c Hlt Heq. subst c. discriminate Hlt.
    + intros other Hother. apply first_tag_match in Hother. congruence.
  - now apply NEXT_DATA_match_None.
Qed.

End MoreHash.

(** ** The routes *)

Section MoreRoutes.
Context {Num : Type} `{JsNumber Num}.
Variable Number : jsstring -> Num.

(** X18.  [POST /api/chat] fetches a page only when it has a message and
    an item URL and no hash, and then only the page of that URL; a request
    without a message is turned down before anything is fetched, and a
    request that brings its hash is served without a fetch. *)
Theorem chat_route_fetches (web : Web) (body : ChatBody) :
  (asked (chat_route (Num := Num) web body) = []
   \/ exists msg itemUrl,
        given (c_message body) = Some msg
        /\ given (c_itemUrl body) = Some itemUrl
        /\ given (c_itemHash body) = None
        /\ asked (chat_route (Num := Num) web body) = [fullUrl itemUrl])
  /\ (given (c_message body) = None ->
      chat_route (Num := Num) web body
      = {| asked := []; answered := Status400 (lit "message required") |})
  /\ (given (c_itemUrl body) = None -> given (c_itemHash body) = None ->
      asked (chat_route (Num := Num) web body) = []
      /\ exists msg, answered (chat_route (Num := Num) web body) = Status400 msg)
  /\ (forall h, given (c_itemHash body) = Some h ->
      asked (chat_route (Num := Num) web body) = []).
Proof.
  unfold chat_route.
  destruct (given (c_message body)) as [msg|];
    destruct (given (c_itemUrl body)) as [itemUrl|];
    destruct (given (c_itemHash body)) as [h|]; cbn [asked answered getItemHash requested];
    (split; [first [now left | right; eauto 10]|]);
    (split; [try discriminate; reflexivity|]);
    (split; [try discriminate; intros _ _; split; eauto|]);
    try discriminate; reflexivity.
Qed.

(** X19.  With a message and a hash, [POST /api/chat] answers with the
    instructions that [buildChatInstructions] builds for that hash and that
    message, whether or not an item URL came along. *)
Theorem chat_route_with_hash (web : Web) (body : ChatBody) (msg h : jsstring) :
  given (c_message body) = Some msg ->
  given (c_itemHash body) = Some h ->
  chat_route (Num := Num) web body
  = {| asked := [];
       answered := Status200 {| ca_hash := VString h;
                                ca_chatUrl := chatUrl h;
                                ca_message := msg;
                                ca_steps := steps (buildChatInstructions h msg) |} |}.
Proof.
  intros Hm Hh. unfold chat_route. rewrite Hm, Hh.
  now destruct (given (c_itemUrl body)).
Qed.

(** X20.  With a message and an item URL only, [POST /api/chat] resolves
    the hash itself: a failure of the resolution is its answer, and a hash
    that is a string gives the very answer that the same request would get
    with that hash in it. *)
Theorem chat_route_resolves (web : Web) (body : ChatBody) (msg itemUrl : jsstring) :
  given (c_message body) = Some msg ->
  given (c_itemUrl body) = Some itemUrl ->
  given (c_itemHash body) = None ->
  asked (chat_route (Num := Num) web body) = [fullUrl itemUrl]
  /\ (forall e, outcome (getItemHash (Num := Num) web itemUrl) = Throw e ->
        answered (chat_route (Num := Num) web body) = Failed e)
  /\ (forall h, outcome (getItemHash (Num := Num) web itemUrl) = Ok (VString h) ->
        answered (chat_route (Num := Num) web body)
        = answered (chat_route (Num := Num) web
                      {| c_itemUrl := c_itemUrl body;
                         c_itemHash := Some h;
                         c_message := c_message body |})).
Proof.
  intros Hm Hu Hh. unfold chat_route. cbn [c_message c_itemUrl c_itemHash].
  rewrite Hm, Hu, Hh. cbn [asked answered]. split; [reflexivity|]. split.
  - now intros e ->.
  - intros h Hout. rewrite Hout. cbn [bind].
    assert (truthy (VString h) = true) as Ht.
    { unfold getItemHash in Hout. cbn [outcome] in Hout.
      destruct (web (fullUrl itemUrl)) as [html|]; cbn [bind] in Hout; [|discriminate].
      unfold hash_of_page in Hout.
      destruct (NEXT_DATA_match html) as [[|c r]|]; try discriminate.
      destruct (JSON_parse (c :: r)) as [nextData|]; cbn [bind] in Hout; [|discriminate].
      destruct (truthy (item_id nextData)) eqn:Ht; [|discriminate].
      injection Hout as Hid. now rewrite <- Hid. }
    destruct h as [|c r]; [discriminate Ht|]. reflexivity.
Qed.

(** X21.  The two instruction builders agree: the one of the JavaScript
    sources returns the chat URL, the message and the steps that the one of
    browser.ts returns; it only has no hash field. *)
Theorem buildChatInstructions_same_in_js (itemHash msg : jsstring) :
  BrowserJs.chatUrl (BrowserJs.buildChatInstructions itemHash msg)
  = ci_chatUrl (buildChatInstructions itemHash msg)
  /\ BrowserJs.message (BrowserJs.buildChatInstructions itemHash msg)
     = message (buildChatInstructions itemHash msg)
  /\ BrowserJs.steps (BrowserJs.buildChatInstructions itemHash msg)
     = steps (buildChatInstructions itemHash msg).
Proof. repeat split. Qed.

(** X22.  The chat URL tells the hash: two hashes with the same chat URL
    are the same hash, and the hash is what follows [?itemId=] in it. *)
Theorem chatUrl_hash (a b : jsstring) :
  (chatUrl a = chatUrl b -> a = b)
  /\ strip_prefix (CHAT_BASE ++ lit "?itemId=") (chatUrl a) = Some a
  /\ ci_chatUrl (buildChatInstructions a b) = chatUrl a.
Proof.
  assert (forall x, strip_prefix (CHAT_BASE ++ lit "?itemId=") (chatUrl x) = Some x) as Hs.
  { intros x. unfold chatUrl. rewrite app_assoc. apply strip_prefix_app. }
  split; [|split; [apply Hs | reflexivity]].
  intros E. pose proof (Hs a) as Ha. rewrite E, Hs in Ha. now injection Ha.
Qed.

(** X23.  What [GET /api/search] sends upstream.  The page size is the
    caller's, as a number, whatever it is, and 20 without one: this route
    has no cap.  A cursor that is not empty goes alone with it, whatever
    else the request holds.  Without a cursor, [q] is the keywords when it
    is not empty, and [keywords] when [q] is empty or missing. *)
Theorem search_route_query (query : list (jsstring * Value Num)) :
  let param name := member (VObject query) (lit name) in
  let sent := search_query (search_params Number query) in
  sent !! "limit"
  = Some (QNum (match qs (param "limit") with
                | Some s => Number s
                | None => num_of_N 20
                end))
  /\ (forall c cursor, qs (param "nextPage") = Some (c :: cursor) ->
        sent = cursor_query (search_params Number query) (c :: cursor))
  /\ (given (qs (param "nextPage")) = None ->
      forall c s,
        (qs (param "q") = Some (c :: s) -> sent !! "keywords" = Some (QStr (c :: s)))
        /\ (given (qs (param "q")) = None -> qs (param "keywords") = Some (c :: s) ->
            sent !! "keywords" = Some (QStr (c :: s)))).
Proof.
  cbn zeta. split; [|split].
  - rewrite (proj1 (search_query_limit _)). cbn [search_params limit]. unfold qn.
    now destruct (qs _).
  - intros c cursor Hc. apply search_query_given_cursor.
    cbn [search_params nextPage]. now rewrite Hc.
  - intros Hno c s. unfold search_query. cbn [search_params nextPage keywords].
    rewrite Hno. split.
    + intros Hq. rewrite Hq. cbn [given]. lookup_query.
    + intros Hq Hk. rewrite Hq, Hk. cbn [given]. lookup_query.
Qed.

(** X24.  The two clients ask for a user's items differently.  The one of
    client.ts sends a page size only when the caller gave one that is not
    zero, and a cursor only when it is not empty; the JavaScript one always
    sends a page size, 20 by default, and sends whatever cursor it is
    given.  Neither sends anything else. *)
Theorem user_items_queries (lim : option Num) (cursor : option jsstring) :
  user_items_query lim cursor !! "limit" = QNum <$> given_num lim
  /\ user_items_query lim cursor !! "next_page" = QStr <$> given cursor
  /\ ClientJs.user_items_query lim cursor !! "limit"
     = Some (QNum (default (num_of_N 20) lim))
  /\ ClientJs.user_items_query lim cursor !! "next_page" = QStr <$> cursor
  /\ dom (user_items_query lim cursor) ⊆ ({["limit"; "next_page"]} : gset string)
  /\ dom (ClientJs.user_items_query lim cursor) ⊆ ({["limit"; "next_page"]} : gset string).
Proof.
  unfold user_items_query, ClientJs.user_items_query.
  repeat (split; [lookup_query|]). split.
  - repeat first [apply dom_set_if_within | apply dom_insert_within];
      solve [set_solver | rewrite dom_empty_L; set_solver].
  - repeat first [apply dom_set_if_within | apply dom_insert_within];
      solve [set_solver | rewrite dom_empty_L; set_solver].
Qed.

(** X26.  [GET /api/items/:id] answers in three ways: with the error of
    the upstream call when that fails, with status 200 when the payload is
    one that the normalizer takes, and with a TypeError when it is not. *)
Theorem item_route_status (api : Upstream Num) (id : jsstring) :
  match api (lit "/items/" ++ id) ∅ with
  | Throw e => item_route api id = Failed e
  | Ok raw =>
      let fine :=
        nullish raw = false
        /\ member raw (lit "title") <> VNull
        /\ member raw (lit "description") <> VNull
        /\ exists slug, ToString (member raw (lit "web_slug")) = Ok slug in
      (fine -> exists d, item_route api id = Status200 d)
      /\ (~ fine -> item_route api id = Failed TypeError)
  end.
Proof.
  unfold item_route, getItem.
  destruct (api (lit "/items/" ++ id) ∅) as [raw|e]; cbn [bind respond]; [|reflexivity].
  split.
  - intros (Hn & Ht & Hd & slug & Hs).
    pose proof (simplifyItemDetails_value raw slug Hn Ht Hd Hs) as E. cbn zeta in E.
    rewrite E. cbn [respond]. eauto.
  - intros Hnot. destruct (details_fine_or_stops raw) as [Hfine | Hstop]; [now destruct Hnot|].
    apply simplifyItemDetails_stops in Hstop as [-> _]. reflexivity.
Qed.

End MoreRoutes.

(** ** The route table *)

Lemma same_piece_nonempty s segment :
  same_piece s segment = true -> s <> EmptyString -> segment <> [].
Proof.
  unfold same_piece. intros E Hs ->. apply jsstring_eqb_eq in E.
  destruct s; [congruence | discriminate E].
Qed.

(** X25.  The route for hashes cannot be reached.  The server registers
    [/api/items/:id] before [/api/items/hash], so a request for the latter
    is a request for the details of an item whose id is [hash], and no
    request at all is handed to the hash handler. *)
Theorem hash_route_shadowed :
  (forall m path params, dispatch m path <> Some (H_item_hash, params))
  /\ (forall segment, same_piece "hash" segment = true ->
        dispatch GET [lit "api"; lit "items"; segment] = Some (H_item, [("id", segment)])).
Proof.
  split.
  - intros m path params. unfold dispatch, ROUTES. cbn [dispatch_in].
    destruct m; cbn [method_eqb].
    + destruct path as [|s1 [|s2 [|s3 [|s4 [|s5 rest]]]]]; cbn [match_path];
        repeat match goal with
               | |- context [same_piece ?a ?b] => destruct (same_piece a b) eqn:?
               end; cbn [match_path]; try discriminate.
      all: try (destruct s3; [|discriminate]).
      all: try (destruct s4; discriminate).
      all: match goal with
           | E : same_piece "hash" [] = true |- _ => discriminate E
           | _ => idtac
           end.
      all: try discriminate.
    + destruct path as [|s1 [|s2 [|s3 rest]]]; cbn [match_path];
        repeat match goal with
               | |- context [same_piece ?a ?b] => destruct (same_piece a b) eqn:?
               end; cbn [match_path]; discriminate.
  - intros segment Hseg. unfold dispatch, ROUTES. cbn [dispatch_in method_eqb match_path].
    assert (same_piece "api" (lit "api") = true) as -> by reflexivity.
    assert (same_piece "items" (lit "items") = true) as -> by reflexivity.
    assert (same_piece "health" (lit "api") = false) as -> by reflexivity.
    assert (same_piece "search" (lit "items") = false) as -> by reflexivity.
    pose proof (same_piece_nonempty _ _ Hseg) as Hne.
    destruct segment; [now destruct Hne | reflexivity].
Qed.

(** * Further examples *)

Section MoreExamples.
Import Decimals Samples MoreSamples.

Lemma simplifySearchItem_domain_witness :
  exists it, simplifySearchItem item_free = Ok it.
Proof.
  apply (proj2 (proj1 (simplifySearchItem_domain item_free))).
  split; [reflexivity | eexists; reflexivity].
Defined.

Lemma simplifyItemDetails_domain_witness :
  (exists d, simplifyItemDetails details_free = Ok d)
  /\ simplifyItemDetails null_title = Throw TypeError.
Proof.
  split.
  - apply (proj1 (simplifyItemDetails_domain details_free)).
    split; [reflexivity|]. split; [discriminate|]. split; [discriminate|].
    eexists; reflexivity.
  - apply (proj2 (simplifyItemDetails_domain null_title)).
    intros (_ & Htitle & _). now apply Htitle.
Defined.

Lemma simplifySearchItem_invariants_witness :
  simplifySearchItem item_free = Ok simplified_free
  /\ truthy (si_currency simplified_free) = true
  /\ exists slug, ToString (si_slug simplified_free) = Ok slug
                  /\ si_url simplified_free = ITEM_URL ++ slug.
Proof.
  assert (simplifySearchItem item_free = Ok simplified_free) as E by reflexivity.
  split; [exact E|].
  destruct (simplifySearchItem_invariants item_free simplified_free E)
    as (Hcur & _ & _ & Hurl).
  split; assumption.
Defined.

Lemma simplifyItemDetails_invariants_witness :
  exists d, simplifyItemDetails details_free = Ok d
    /\ nullish (it_price d) = false
    /\ truthy (it_currency d) = true.
Proof.
  destruct (simplifyItemDetails details_free) as [d|] eqn:E; [|discriminate E].
  exists d. split; [reflexivity|].
  destruct (simplifyItemDetails_invariants details_free d E) as (Hprice & Hcur & _).
  split; assumption.
Defined.

Lemma search_result_no_items_witness :
  search_result (VObject [] : Value Dec)
  = Ok {| sr_items := []; sr_nextPage := VNull; sr_total := zero |}.
Proof. apply (search_result_no_items (VObject [] : Value Dec)). reflexivity. Defined.

Lemma search_failures_witness :
  search (upstream_returning response_with_object) cursor_abc = Throw TypeError.
Proof.
  apply (proj2 (proj2 (search_failures (upstream_returning response_with_object) cursor_abc))
           response_with_object).
  - reflexivity.
  - intros raws E. discriminate E.
Defined.

Lemma search_result_cursor_witness :
  exists r, search_result (response [item_free]) = Ok r
    /\ (sr_nextPage r = VNull \/ truthy (sr_nextPage r) = true).
Proof.
  destruct (search_result (response [item_free])) as [r|] eqn:E; [|discriminate E].
  exists r. split; [reflexivity|].
  exact (proj1 (search_result_cursor (response [item_free]) r E)).
Defined.

Lemma search_query_filters_witness :
  given (nextPage params_mesa) = None
  /\ search_query params_mesa !! "keywords" = Some (QStr (lit "mesa"))
  /\ search_query params_mesa !! "order_by" = None.
Proof.
  split; [reflexivity|].
  destruct (search_query_filters params_mesa eq_refl)
    as (_ & Hk & _ & _ & _ & _ & _ & _ & Ho & _).
  split; assumption.
Defined.

Lemma composite_falsy_bound_witness :
  b_maxPrice contact_body_free = Some (num_of_N 0)
  /\ search_query (contact_params contact_body_free (lit "mesa")) !! "max_sale_price"
     = Some (QNum (num_of_N 0))
  /\ Js.search_query (Js.contact_params contact_body_free (lit "mesa")) !! "max_sale_price"
     = None.
Proof.
  split; [reflexivity|].
  apply (composite_falsy_bound contact_body_free (lit "mesa") (num_of_N 0));
    reflexivity.
Defined.

Lemma getItemHash_run_witness :
  outcome (getItemHash (Num := Dec) (web_with MESA_URL (page_with next_data)) (lit "mesa-101"))
  = Ok (VString (lit "qzmmv570nlzv"))
  /\ truthy (VString (lit "qzmmv570nlzv") : Value Dec) = true.
Proof.
  assert (outcome (getItemHash (Num := Dec) (web_with MESA_URL (page_with next_data))
                     (lit "mesa-101"))
          = Ok (VString (lit "qzmmv570nlzv"))) as E by reflexivity.
  split; [exact E|].
  exact (proj1 (proj2 (proj2 (getItemHash_run (Num := Dec)
                                (web_with MESA_URL (page_with next_data)) (lit "mesa-101")))
                 _ E)).
Defined.

Lemma getItemHash_of_slug_witness :
  requested (getItemHash (Num := Dec) (web_with MESA_URL []) (lit "lampara-103"))
  = [si_url simplified_free].
Proof.
  assert (simplifySearchItem item_free = Ok simplified_free) as E by reflexivity.
  exact (proj1 (getItemHash_of_slug (web_with MESA_URL []) item_free simplified_free
                  (lit "lampara-103") E eq_refl eq_refl)).
Defined.

Lemma NEXT_DATA_match_leftmost_witness :
  first_tag (page_with next_data) next_data
  /\ forall other, first_tag (page_with next_data) other -> other = next_data.
Proof.
  pose proof (NEXT_DATA_match_leftmost (page_with next_data)) as Hm.
  assert (NEXT_DATA_match (page_with next_data) = Some next_data) as E by reflexivity.
  rewrite E in Hm. destruct Hm as (Htag & _ & _ & Hone). split; assumption.
Defined.

Lemma chat_route_fetches_witness :
  chat_route (Num := Dec) (web_with MESA_URL (page_with next_data)) chat_without_message
  = {| asked := []; answered := Status400 (lit "message required") |}.
Proof.
  apply (proj1 (proj2 (chat_route_fetches (Num := Dec)
                         (web_with MESA_URL (page_with next_data)) chat_without_message))).
  reflexivity.
Defined.

Lemma chat_route_with_hash_witness :
  asked (chat_route (Num := Dec) (web_with MESA_URL (page_with next_data)) chat_with_hash)
  = [].
Proof.
  rewrite (chat_route_with_hash (Num := Dec) (web_with MESA_URL (page_with next_data))
             chat_with_hash (lit "Hola!") (lit "qzmmv570nlzv") eq_refl eq_refl).
  reflexivity.
Defined.

Lemma chat_route_resolves_witness :
  asked (chat_route (Num := Dec) (web_with MESA_URL (page_with next_data)) chat_with_url)
  = [MESA_URL]
  /\ answered (chat_route (Num := Dec) (web_with MESA_URL (page_with next_data)) chat_with_url)
     = answered (chat_route (Num := Dec) (web_with MESA_URL (page_with next_data))
                   chat_with_hash).
Proof.
  destruct (chat_route_resolves (Num := Dec) (web_with MESA_URL (page_with next_data))
              chat_with_url (lit "Hola!") MESA_URL eq_refl eq_refl eq_refl)
    as (Hasked & _ & Hsame).
  split; [exact Hasked|].
  assert (outcome (getItemHash (Num := Dec) (web_with MESA_URL (page_with next_data)) MESA_URL)
          = Ok (VString (lit "qzmmv570nlzv"))) as E by reflexivity.
  exact (Hsame _ E).
Defined.

Lemma chatUrl_hash_witness :
  strip_prefix (CHAT_BASE ++ lit "?itemId=") (chatUrl (lit "qzmmv570nlzv"))
  = Some (lit "qzmmv570nlzv")
  /\ (chatUrl (lit "qzmmv570nlzv") = chatUrl (lit "qzmmv570nlzv") ->
      lit "qzmmv570nlzv" = lit "qzmmv570nlzv").
Proof.
  destruct (chatUrl_hash (lit "qzmmv570nlzv") (lit "qzmmv570nlzv")) as (Hinj & Hstrip & _).
  split; assumption.
Defined.

Lemma search_route_query_witness :
  search_query (search_params Number_of_digits query_with_cursor)
  = cursor_query (search_params Number_of_digits query_with_cursor) (lit "abc")
  /\ search_query (search_params Number_of_digits query_with_cursor) !! "limit"
     = Some (QNum (num_of_N 1000))
  /\ search_query (search_params Number_of_digits query_repeated) !! "keywords"
     = Some (QStr (lit "mesa")).
Proof.
  destruct (search_route_query Number_of_digits query_with_cursor) as (Hlimit & Hcursor & _).
  destruct (search_route_query Number_of_digits query_repeated) as (_ & _ & Hkeywords).
  split; [exact (Hcursor 97 (lit "bc") eq_refl)|]. split; [exact Hlimit|].
  exact (proj1 (Hkeywords eq_refl 109 (lit "esa")) eq_refl).
Defined.

Lemma item_route_status_witness :
  (exists d, item_route (upstream_returning details_free) (lit "103") = Status200 d)
  /\ item_route (upstream_returning null_title) (lit "hash") = Failed TypeError.
Proof.
  split.
  - apply (proj1 (item_route_status (upstream_returning details_free) (lit "103"))).
    split; [reflexivity|]. split; [discriminate|]. split; [discriminate|].
    eexists; reflexivity.
  - apply (proj2 (item_route_status (upstream_returning null_title) (lit "hash"))).
    intros (_ & Htitle & _). now apply Htitle.
Defined.

Lemma hash_route_shadowed_witness :
  dispatch GET [lit "api"; lit "items"; lit "hash"] = Some (H_item, [("id", lit "hash")])
  /\ dispatch GET [lit "api"; lit "items"; lit "HASH"] = Some (H_item, [("id", lit "HASH")]).
Proof.
  split; apply (proj2 hash_route_shadowed); reflexivity.
Defined.

End MoreExamples.
